(** * novel-splitter: split_novel.py

    A shallow embedding of [scripts/split_novel.py] and the properties of
    its numeral parser, encoding detector, heading-pattern detector and
    chapter segmenter.

    A Python [str] is a sequence of Unicode code points: [str := list N].
    Python integers are unbounded: [Z].  Offsets into a string are [nat].
    A function that can raise returns an [outcome]; [split_chapters], which
    also makes a directory and writes files, threads a [disk] through a
    small monad.  The built-in heading patterns are given in parsed form
    and run by a backtracking matcher with the semantics of [re] (greedy
    repetition, MULTILINE anchors, [finditer] with its rule for empty
    matches); a custom pattern is compiled by a parameter, as are the
    codecs and the path functions of [os.path]. *)

From Stdlib Require Import String Ascii.
From Stdlib Require Import List ZArith NArith Lia Bool Arith.
From Stdlib Require DecimalNat.

Set Warnings "-abstract-large-number".
Import ListNotations.

Set Implicit Arguments.

(** ** Python values *)

Definition char := N.
Definition str := list char.

(** An ASCII literal as a Python string. *)
Definition py (s : string) : str := map N_of_ascii (list_ascii_of_string s).

Definition nl : char := 10%N.

(** The characters of the numeral tables and of the file-name frame. *)
Module Han.
Definition ling : char := 0x96f6%N.  (* U+96F6, zero *)
Definition yi1 : char := 0x4e00%N.   (* U+4E00, one *)
Definition er : char := 0x4e8c%N.    (* U+4E8C, two *)
Definition san : char := 0x4e09%N.   (* U+4E09, three *)
Definition si : char := 0x56db%N.    (* U+56DB, four *)
Definition wu : char := 0x4e94%N.    (* U+4E94, five *)
Definition liu : char := 0x516d%N.   (* U+516D, six *)
Definition qi : char := 0x4e03%N.    (* U+4E03, seven *)
Definition ba : char := 0x516b%N.    (* U+516B, eight *)
Definition jiu : char := 0x4e5d%N.   (* U+4E5D, nine *)
Definition shi : char := 0x5341%N.   (* U+5341, ten *)
Definition bai : char := 0x767e%N.   (* U+767E, hundred *)
Definition qian : char := 0x5343%N.  (* U+5343, thousand *)
Definition wan : char := 0x4e07%N.   (* U+4E07, ten thousand *)
Definition yi : char := 0x4ebf%N.    (* U+4EBF, hundred million *)
Definition di : char := 0x7b2c%N.    (* U+7B2C, ordinal prefix *)
Definition zhang : char := 0x7ae0%N. (* U+7AE0, chapter *)
Definition juan : char := 0x5377%N.  (* U+5377, volume *)
End Han.

(** Exceptions a function of the script can raise. *)
Inductive exn : Type :=
| FileNotFoundError (msg : str)
| ValueError (msg : str)
| AttributeError.

Inductive outcome (A : Type) : Type :=
| Ok (a : A)
| Raise (e : exn).
Arguments Ok {A} a.
Arguments Raise {A} e.

Definition bind {A B} (m : outcome A) (f : A -> outcome B) : outcome B :=
  match m with
  | Ok a => f a
  | Raise e => Raise e
  end.

Notation "x <- m ;; k" := (bind m (fun x => k))
  (at level 61, m at next level, right associativity).

(** ** parse_chinese_number (lines 25-59) *)

Definition chinese_to_arabic : list (char * Z) :=
  [ (Han.ling, 0%Z); (Han.yi1, 1%Z); (Han.er, 2%Z); (Han.san, 3%Z);
    (Han.si, 4%Z); (Han.wu, 5%Z); (Han.liu, 6%Z); (Han.qi, 7%Z);
    (Han.ba, 8%Z); (Han.jiu, 9%Z); (Han.shi, 10%Z);
    (Han.bai, 100%Z); (Han.qian, 1000%Z) ].

(** [d[key]] guarded by [key in d]. *)
Fixpoint dict_get (d : list (char * Z)) (key : char) : option Z :=
  match d with
  | [] => None
  | (k, v) :: rest => if N.eqb key k then Some v else dict_get rest key
  end.

(** The two locals of the loop. *)
Record locals : Type := { result : Z; temp : Z }.

(** One iteration of [for char in text]. *)
Definition loop_body (st : locals) (ch : char) : locals :=
  match dict_get chinese_to_arabic ch with
  | Some value =>
      if (100 <=? value)%Z then
        {| result := result st; temp := (temp st * value)%Z |}
      else if (10 <=? value)%Z then
        {| result := result st;
           temp := if (temp st =? 0)%Z then value
                   else (temp st * 10 + value)%Z |}
      else
        {| result := result st; temp := (temp st + value)%Z |}
  | None =>
      if N.eqb ch Han.wan then
        {| result := (result st + temp st * 10000)%Z; temp := 0%Z |}
      else if N.eqb ch Han.yi then
        {| result := (result st + temp st * 100000000)%Z; temp := 0%Z |}
      else st
  end.

(** The characters the loop acts on: the keys of the table and the two
    group separators. *)
Definition recognized (ch : char) : bool :=
  match dict_get chinese_to_arabic ch with
  | Some _ => true
  | None => N.eqb ch Han.wan || N.eqb ch Han.yi
  end.

(** The body of the [try] block, up to the value of [result] after
    [result += temp]. *)
Definition try_block (text : str) : outcome Z :=
  let st := fold_left loop_body text {| result := 0%Z; temp := 0%Z |} in
  Ok (result st + temp st)%Z.

Definition parse_chinese_number (text : str) : option Z :=
  match text with
  | [] => None
  | _ =>
      match try_block text with
      | Ok r => if (0 <? r)%Z then Some r else None
      | Raise _ => None
      end
  end.

(** *** The rule in the specification's words *)

Inductive numeral_class : Type :=
| DigitValue (v : Z)       (* a character of value 0..9 *)
| TenMultiplier
| HundredMultiplier
| ThousandMultiplier
| GroupSeparator (g : Z)   (* 10,000 or 100,000,000 *)
| Unrecognized.

Definition classify (ch : char) : numeral_class :=
  if N.eqb ch Han.ling then DigitValue 0
  else if N.eqb ch Han.yi1 then DigitValue 1
  else if N.eqb ch Han.er then DigitValue 2
  else if N.eqb ch Han.san then DigitValue 3
  else if N.eqb ch Han.si then DigitValue 4
  else if N.eqb ch Han.wu then DigitValue 5
  else if N.eqb ch Han.liu then DigitValue 6
  else if N.eqb ch Han.qi then DigitValue 7
  else if N.eqb ch Han.ba then DigitValue 8
  else if N.eqb ch Han.jiu then DigitValue 9
  else if N.eqb ch Han.shi then TenMultiplier
  else if N.eqb ch Han.bai then HundredMultiplier
  else if N.eqb ch Han.qian then ThousandMultiplier
  else if N.eqb ch Han.wan then GroupSeparator 10000
  else if N.eqb ch Han.yi then GroupSeparator 100000000
  else Unrecognized.

(** [(result, accumulator)] after one character, as the rule is worded. *)
Definition rule_step (st : Z * Z) (ch : char) : Z * Z :=
  let '(res, accumulator) := st in
  match classify ch with
  | DigitValue v => (res, accumulator + v)%Z
  | HundredMultiplier => (res, accumulator * 100)%Z
  | ThousandMultiplier => (res, accumulator * 1000)%Z
  | TenMultiplier =>
      (res, if (accumulator =? 0)%Z then 10 else accumulator * 10 + 10)%Z
  | GroupSeparator g => (res + accumulator * g, 0)%Z
  | Unrecognized => (res, accumulator)
  end.

Definition rule_total (text : str) : Z :=
  let '(res, accumulator) := fold_left rule_step text (0%Z, 0%Z) in
  (res + accumulator)%Z.


(** ** String methods used by the script *)

(** [str.isspace] on one character, which is also what [\s] matches in a
    [str] pattern (Unicode 14 white space). *)
Definition isspace (c : char) : bool :=
  ((0x09 <=? c) && (c <=? 0x0d) || (0x1c <=? c) && (c <=? 0x20)
   || (c =? 0x85) || (c =? 0xa0) || (c =? 0x1680)
   || (0x2000 <=? c) && (c <=? 0x200a)
   || (c =? 0x2028) || (c =? 0x2029) || (c =? 0x202f) || (c =? 0x205f)
   || (c =? 0x3000))%N.

(** First code point of each run of ten decimal digits (category Nd,
    Unicode 14): what [str.isdecimal] and [\d] accept. *)
Definition decimal_zeros : list char :=
  [ 0x30; 0x660; 0x6f0; 0x7c0; 0x966; 0x9e6; 0xa66; 0xae6; 0xb66; 0xbe6;
    0xc66; 0xce6; 0xd66; 0xde6; 0xe50; 0xed0; 0xf20; 0x1040; 0x1090;
    0x17e0; 0x1810; 0x1946; 0x19d0; 0x1a80; 0x1a90; 0x1b50; 0x1bb0;
    0x1c40; 0x1c50; 0xa620; 0xa8d0; 0xa900; 0xa9d0; 0xa9f0; 0xaa50;
    0xabf0; 0xff10; 0x104a0; 0x10d30; 0x11066; 0x110f0; 0x11136;
    0x111d0; 0x112f0; 0x11450; 0x114d0; 0x11650; 0x116c0; 0x11730;
    0x118e0; 0x11950; 0x11c50; 0x11d50; 0x11da0; 0x16a60; 0x16ac0;
    0x16b50; 0x1d7ce; 0x1d7d8; 0x1d7e2; 0x1d7ec; 0x1d7f6; 0x1e140;
    0x1e2f0; 0x1e950; 0x1fbf0 ]%N.

Definition isdecimal (c : char) : bool :=
  existsb (fun z => (z <=? c) && (c <? z + 10))%N decimal_zeros.

Fixpoint lstrip (s : str) : str :=
  match s with
  | c :: s' => if isspace c then lstrip s' else s
  | [] => []
  end.

Definition rstrip (s : str) : str := rev (lstrip (rev s)).

Definition strip (s : str) : str := rstrip (lstrip s).

(** [s[a:b]] for [0 <= a] and [0 <= b]. *)
Definition slice (s : str) (a b : nat) : str := firstn (b - a) (skipn a s).

(** [s.split(sep)] for a one-character separator: the pieces, and the
    piece being read. *)
Fixpoint split_from (sep : char) (s : str) (piece : str) : list str :=
  match s with
  | [] => [rev piece]
  | c :: s' =>
      if N.eqb c sep then rev piece :: split_from sep s' []
      else split_from sep s' (c :: piece)
  end.

Definition split (s : str) (sep : char) : list str := split_from sep s [].

(** [s.rfind(c, 0, hi)]: the last index below [hi] holding [c], or -1. *)
Fixpoint rfind_from (c : char) (s : str) (i : nat) (last : Z) : Z :=
  match s with
  | [] => last
  | x :: s' => rfind_from c s' (S i) (if N.eqb x c then Z.of_nat i else last)
  end.

Definition rfind (s : str) (c : char) (hi : nat) : Z :=
  rfind_from c (firstn hi s) 0 (-1)%Z.

(** [c in s]. *)
Definition contains (s : str) (c : char) : bool := existsb (N.eqb c) s.

(** A plus or a minus. *)
Definition is_sign (c : char) : bool := N.eqb c 43 || N.eqb c 45.

(** [s.zfill(width)]: zeros go after a leading sign. *)
Definition zfill (width : nat) (s : str) : str :=
  if width <=? length s then s
  else
    let fill := repeat 48%N (width - length s) in
    match s with
    | c :: s' => if is_sign c then c :: fill ++ s' else fill ++ s
    | [] => fill
    end.

(** [str(n)] for an integer. *)
Fixpoint uint_chars (d : Decimal.uint) : str :=
  match d with
  | Decimal.Nil => []
  | Decimal.D0 d => 48%N :: uint_chars d
  | Decimal.D1 d => 49%N :: uint_chars d
  | Decimal.D2 d => 50%N :: uint_chars d
  | Decimal.D3 d => 51%N :: uint_chars d
  | Decimal.D4 d => 52%N :: uint_chars d
  | Decimal.D5 d => 53%N :: uint_chars d
  | Decimal.D6 d => 54%N :: uint_chars d
  | Decimal.D7 d => 55%N :: uint_chars d
  | Decimal.D8 d => 56%N :: uint_chars d
  | Decimal.D9 d => 57%N :: uint_chars d
  end.

Definition str_of_nat (n : nat) : str := uint_chars (Nat.to_uint n).

(** [str(z)], without the limit some interpreters put on the number of
    digits (4300 by default from Python 3.11 on, where formatting a longer
    integer raises ValueError). *)
Definition str_of_Z (z : Z) : str :=
  if (z <? 0)%Z then 45%N :: str_of_nat (Z.to_nat (- z))
  else str_of_nat (Z.to_nat z).

(** The number a string of ASCII digits denotes (other characters count
    as zero digits); used to read file names back. *)
Definition digit_value (c : char) : nat := N.to_nat (c - 48)%N.

Definition digits_value (s : str) : nat :=
  fold_left (fun acc c => 10 * acc + digit_value c) s 0.

(** ** Regular expressions: the part of [re] the script relies on *)

Inductive set_item : Type :=
| One (c : char)
| Range (lo hi : char).

Inductive cclass : Type :=
| CLit (c : char)               (* a literal character *)
| CSet (items : list set_item)  (* [...] *)
| CDigit                        (* \d *)
| CSpace                        (* \s *)
| CAny.                         (* . *)

Inductive regex : Type :=
| REps
| RChar (c : cclass)
| RBol                          (* ^ *)
| REol                          (* $ *)
| RSeq (a b : regex)
| RPlus (a : regex)             (* a+ *)
| RStar (a : regex)             (* a* *)
| ROpt (a : regex)              (* a? *)
| RGroup (a : regex).           (* (a), the only group of a pattern *)

Definition set_item_mem (ch : char) (it : set_item) : bool :=
  match it with
  | One c => N.eqb ch c
  | Range lo hi => (lo <=? ch)%N && (ch <=? hi)%N
  end.

Definition cclass_mem (c : cclass) (ch : char) : bool :=
  match c with
  | CLit x => N.eqb ch x
  | CSet items => existsb (set_item_mem ch) items
  | CDigit => isdecimal ch
  | CSpace => isspace ch
  | CAny => negb (N.eqb ch nl)
  end.

Fixpoint has_group (r : regex) : bool :=
  match r with
  | RGroup _ => true
  | RSeq a b => has_group a || has_group b
  | RPlus a | RStar a | ROpt a => has_group a
  | _ => false
  end.

(** A span [(a, b)] is the half-open range of offsets [a..b). *)
Definition span : Type := nat * nat.

(** What a successful match attempt yields: where it ends, and the span
    of the group if it took part. *)
Definition attempt : Type := option (nat * option span).

Definition cont : Type := nat -> option span -> attempt.

(** Greedy repetition of [body] from offset [i]: one more round when it
    consumes something and the rest then matches, else the rest at [i]. *)
Fixpoint greedy (body : nat -> option span -> cont -> attempt)
    (fuel : nat) (i : nat) (g : option span) (k : cont) : attempt :=
  match fuel with
  | 0 => k i g
  | S fuel' =>
      match body i g (fun j g' =>
                        if i <? j then greedy body fuel' j g' k else None) with
      | Some m => Some m
      | None => k i g
      end
  end.

Section Engine.
Variable multiline : bool.   (* re.MULTILINE *)
Variable s : str.            (* the subject string *)

Definition at_bol (i : nat) : bool :=
  match i with
  | 0 => true
  | S j =>
      multiline &&
      match nth_error s j with Some c => N.eqb c nl | None => false end
  end.

Definition at_eol (i : nat) : bool :=
  (i =? length s) ||
  match nth_error s i with
  | Some c => N.eqb c nl && (multiline || (S i =? length s))
  | None => false
  end.

(** Backtracking matcher: [run r i g k] matches [r] at offset [i] and
    hands the offset reached to the rest of the pattern [k]. *)
Fixpoint run (r : regex) (i : nat) (g : option span) (k : cont)
    {struct r} : attempt :=
  match r with
  | REps => k i g
  | RChar c =>
      match nth_error s i with
      | Some ch => if cclass_mem c ch then k (S i) g else None
      | None => None
      end
  | RBol => if at_bol i then k i g else None
  | REol => if at_eol i then k i g else None
  | RSeq a b => run a i g (fun j g' => run b j g' k)
  | RPlus a =>
      run a i g (fun j g' => greedy (run a) (S (length s)) j g' k)
  | RStar a => greedy (run a) (S (length s)) i g k
  | ROpt a =>
      match run a i g k with
      | Some m => Some m
      | None => k i g
      end
  | RGroup a => run a i g (fun j _ => k j (Some (i, j)))
  end.

(** One attempt at offset [i]; after an empty match the next one at
    the same offset must not be empty. *)
Definition match_at (r : regex) (i : nat) (must_advance : bool) : attempt :=
  run r i None
      (fun j g => if must_advance && (j =? i) then None else Some (j, g)).

(** The leftmost match starting at [i] or later. *)
Fixpoint search (r : regex) (fuel : nat) (i : nat) (must_advance : bool)
    : option (nat * nat * option span) :=
  match match_at r i must_advance with
  | Some (j, g) => Some (i, j, g)
  | None =>
      match fuel with
      | 0 => None
      | S fuel' => search r fuel' (S i) false
      end
  end.
End Engine.

(** A match object: [m.start()], [m.end()] and [m.groups()]; [m.group(0)]
    is the subject between the two offsets. *)
Record Match : Type := {
  m_start : nat;
  m_end : nat;
  m_groups : list (option str)
}.

Definition group0 (content : str) (m : Match) : str :=
  slice content (m_start m) (m_end m).

(** A compiled pattern, as far as the script uses one. *)
Record Pattern : Type := {
  finditer : str -> list Match
}.

Definition make_match (r : regex) (s : str) (a b : nat) (g : option span)
    : Match :=
  {| m_start := a;
     m_end := b;
     m_groups :=
       if has_group r then
         [ match g with
           | Some (x, y) => Some (slice s x y)
           | None => None
           end ]
       else [] |}.

(** [finditer]: each search resumes where the last match ended. *)
Fixpoint finditer_from (multiline : bool) (r : regex) (s : str)
    (fuel : nat) (pos : nat) (must_advance : bool) : list Match :=
  match fuel with
  | 0 => []
  | S fuel' =>
      match search multiline s r (length s - pos) pos must_advance with
      | None => []
      | Some (a, b, g) =>
          make_match r s a b g
          :: finditer_from multiline r s fuel' b (b =? a)
      end
  end.

(** [re.compile(pattern, flags)] for a pattern given in parsed form. *)
Definition re_compile_regex (r : regex) (multiline : bool) : Pattern :=
  {| finditer := fun s =>
       finditer_from multiline r s (2 * length s + 2) 0 false |}.

(** [re.match(pattern, s)] as a truth value. *)
Definition re_match (r : regex) (s : str) : bool :=
  match match_at false s r 0 false with
  | Some _ => true
  | None => false
  end.

(** ** DEFAULT_PATTERNS (lines 14-22) *)

Definition seq (rs : list regex) : regex := fold_right RSeq REps rs.

Definition lit (c : char) : regex := RChar (CLit c).

Definition lits (s : str) : regex := seq (map lit s).

(** The thirteen numeral characters of the bracket expressions. *)
Definition numerals : str :=
  [ Han.ling; Han.yi1; Han.er; Han.san; Han.si; Han.wu; Han.liu; Han.qi;
    Han.ba; Han.jiu; Han.shi; Han.bai; Han.qian ].

(** Each pattern: its source text and its parsed form. *)
Definition pat_chinese : str * regex :=
  (py "^" ++ [Han.di] ++ py "([" ++ numerals ++ py "]+)["
     ++ [Han.zhang; Han.juan] ++ py "]",
   seq [ RBol; lit Han.di; RGroup (RPlus (RChar (CSet (map One numerals))));
         RChar (CSet [One Han.zhang; One Han.juan]) ]).

Definition pat_arabic : str * regex :=
  (py "^" ++ [Han.di] ++ py "(\d+)[" ++ [Han.zhang; Han.juan] ++ py "]",
   seq [ RBol; lit Han.di; RGroup (RPlus (RChar CDigit));
         RChar (CSet [One Han.zhang; One Han.juan]) ]).

Definition pat_Chapter : str * regex :=
  (py "^Chapter\s+(\d+)",
   seq [ RBol; lits (py "Chapter"); RPlus (RChar CSpace);
         RGroup (RPlus (RChar CDigit)) ]).

Definition pat_chapter : str * regex :=
  (py "^chapter\s+(\d+)",
   seq [ RBol; lits (py "chapter"); RPlus (RChar CSpace);
         RGroup (RPlus (RChar CDigit)) ]).

Definition pat_loose : str * regex :=
  (py "^" ++ [Han.di] ++ py "[0-9" ++ numerals ++ py "]+" ++ [Han.zhang]
     ++ py ".*$",
   seq [ RBol; lit Han.di;
         RPlus (RChar (CSet (Range 48%N 57%N :: map One numerals)));
         lit Han.zhang; RStar (RChar CAny); REol ]).

Definition pat_dotted : str * regex :=
  (py "^\s*\d+\.\s+",
   seq [ RBol; RStar (RChar CSpace); RPlus (RChar CDigit); lit 46%N;
         RPlus (RChar CSpace) ]).

Definition pat_bare : str * regex :=
  (py "^\s*\d+\s+",
   seq [ RBol; RStar (RChar CSpace); RPlus (RChar CDigit);
         RPlus (RChar CSpace) ]).

Definition DEFAULT_PATTERNS : list (str * regex) :=
  [ pat_chinese; pat_arabic; pat_Chapter; pat_chapter; pat_loose;
    pat_dotted; pat_bare ].

(** ** detect_chapter_pattern (lines 77-86) *)

(** [for line in lines: if re.match(pattern, line.strip())]. *)
Fixpoint scan_lines (r : regex) (lines : list str) : bool :=
  match lines with
  | [] => false
  | line :: rest =>
      if re_match r (strip line) then true else scan_lines r rest
  end.

(** [for pattern in DEFAULT_PATTERNS], returning at the first hit. *)
Fixpoint scan_patterns (patterns : list (str * regex)) (lines : list str)
    : option Pattern * str :=
  match patterns with
  | [] => (None, [])
  | (pattern, r) :: rest =>
      if scan_lines r lines then (Some (re_compile_regex r true), pattern)
      else scan_patterns rest lines
  end.

Definition detect_chapter_pattern (content : str) : option Pattern * str :=
  let lines := firstn 100 (split content nl) in
  scan_patterns DEFAULT_PATTERNS lines.

(** ** Chapter records and the file-name frame *)

Record Chapter : Type := {
  start : nat;
  end_ : nat;
  title : str;
  filename : str;
  chapter_num : str
}.

(** [f"<di>{token.zfill(4)}<zhang>.md"]. *)
Definition chapter_filename (token : str) : str :=
  [Han.di] ++ zfill 4 token ++ [Han.zhang] ++ py ".md".

(** [re.sub] of line 165: each of the nine characters unsafe in a file
    name (less-than, greater-than, colon, double quote, slash, backslash,
    bar, question mark, star) becomes an underscore. *)
Definition unsafe_char (c : char) : bool :=
  existsb (N.eqb c) [60; 62; 58; 34; 47; 92; 124; 63; 42]%N.

Definition sanitize (s : str) : str :=
  map (fun c => if unsafe_char c then 95%N else c) s.

(** [re.match(r'^<di>', s)] and [re.match(r'^<di>\d+', s)]. *)
Definition starts_di (s : str) : bool :=
  re_match (seq [RBol; lit Han.di]) s.

Definition starts_di_digits (s : str) : bool :=
  re_match (seq [RBol; lit Han.di; RPlus (RChar CDigit)]) s.

(** [str(x)] for an optional string: [None] prints as "None". *)
Definition str_of_optional (x : option str) : str :=
  match x with
  | Some s => s
  | None => py "None"
  end.

(** [parse_chinese_number] applied to a value that may be [None]. *)
Definition parse_chinese_number_opt (x : option str) : option Z :=
  match x with
  | Some s => parse_chinese_number s
  | None => None
  end.

(** One iteration of [for i, match in enumerate(chapter_matches)]
    (lines 148-182): the record appended to [chapters]. *)
Definition chapter_of_match (content : str) (chapter_matches : list Match)
    (chapters : list Chapter) (i : nat) (m : Match) : outcome Chapter :=
  let start0 := m_start m in
  let chapter_title := strip (group0 content m) in
  let chapter_num0 : option str :=
    match m_groups m with
    | [] => Some (str_of_nat (length chapters + 1))
    | g1 :: _ => g1
    end in
  let line_start :=
    if contains (firstn start0 content) nl
    then Z.to_nat (rfind content nl start0 + 1)
    else 0 in
  let full_title_line := strip (slice content line_start start0) in
  let full_title_line :=
    match full_title_line with
    | [] => chapter_title
    | _ => full_title_line
    end in
  let end0 :=
    if i + 1 <? length chapter_matches
    then m_start (nth (i + 1) chapter_matches m)
    else length content in
  let safe_title := sanitize full_title_line in
  let safe_title := firstn 50 (strip safe_title) in
  let safe_title :=
    if starts_di full_title_line && negb (starts_di_digits safe_title) then
      match parse_chinese_number_opt chapter_num0 with
      | Some num => [Han.di] ++ str_of_Z num ++ [Han.zhang]
      | None => [Han.di] ++ str_of_optional chapter_num0 ++ [Han.zhang]
      end
    else safe_title in
  match chapter_num0 with
  | None => Raise AttributeError          (* None has no zfill *)
  | Some token =>
      Ok {| start := start0;
            end_ := end0;
            title := full_title_line;
            filename := chapter_filename token;
            chapter_num := token |}
  end.

(** The loop over the matches still to visit, [i] being the index of
    the first of them. *)
Fixpoint chapters_loop (content : str) (chapter_matches : list Match)
    (todo : list Match) (i : nat) (chapters : list Chapter)
    : outcome (list Chapter) :=
  match todo with
  | [] => Ok chapters
  | m :: todo' =>
      c <- chapter_of_match content chapter_matches chapters i m ;;
      chapters_loop content chapter_matches todo' (i + 1) (chapters ++ [c])
  end.

(** Lines 184-196: the trailing-segment check. *)
Definition epilogue_title : str := [0x540e; 0x8bb0; 0x2f; 0x5c3e; 0x58f0]%N.

Definition add_epilogue (content : str) (chapters : list Chapter)
    : list Chapter :=
  let last_end := length content in
  if last_end <? length content then
    match strip (skipn last_end content) with
    | [] => chapters
    | _ =>
        chapters ++
        [ {| start := last_end;
             end_ := length content;
             title := epilogue_title;
             filename := chapter_filename (str_of_nat (length chapters + 1));
             chapter_num := str_of_nat (length chapters + 1) |} ]
    end
  else chapters.

(** Lines 144-196: the chapter list for a document and its matches. *)
Definition segment (content : str) (chapter_matches : list Match)
    : outcome (list Chapter) :=
  chapters <- chapters_loop content chapter_matches chapter_matches 0 [] ;;
  Ok (add_epilogue content chapters).

(** ** Files and the effects of a run *)

(** What a run leaves on disk: the directories it made and, in order,
    the files it wrote with their text. *)
Record disk : Type := {
  made_dirs : list str;
  written : list (str * str)
}.

Definition io (A : Type) : Type := disk -> outcome A * disk.

Definition io_ret {A} (a : A) : io A := fun d => (Ok a, d).

Definition io_raise {A} (e : exn) : io A := fun d => (Raise e, d).

Definition io_lift {A} (o : outcome A) : io A := fun d => (o, d).

Definition io_bind {A B} (m : io A) (f : A -> io B) : io B :=
  fun d =>
    match m d with
    | (Ok a, d') => f a d'
    | (Raise e, d') => (Raise e, d')
    end.

Notation "x <~ m ;; k" := (io_bind m (fun x => k))
  (at level 61, m at next level, right associativity).

(** [os.makedirs(path, exist_ok=True)]. *)
Definition makedirs (path : str) : io unit :=
  fun d => (Ok tt, {| made_dirs := made_dirs d ++ [path];
                      written := written d |}).

(** [with open(path, 'w', encoding='utf-8') as f: f.write(text)], taken
    to succeed.  The interpreter can refuse it (a path through a missing
    directory or too long a name, built from the token as captured; a text
    that utf-8 cannot encode), possibly after earlier files were written:
    what is proved of a run that writes is proved of runs that return. *)
Definition write_file (path text : str) : io unit :=
  fun d => (Ok tt, {| made_dirs := made_dirs d;
                      written := written d ++ [(path, text)] |}).

Record SplitResult : Type := {
  success : bool;
  input_file : str;
  output_dir : str;
  pattern_used : str;
  encoding : str;
  chapters_found : nat;
  files_created : list str
}.

(** Message texts of the three [raise] statements and the name of the
    output folder. *)
Definition msg_not_found : str :=
  [0x6587; 0x4ef6; 0x4e0d; 0x5b58; 0x5728; 0x3a; 0x20]%N.

Definition msg_bad_pattern : str :=
  [0x81ea; 0x5b9a; 0x4e49; 0x6b63; 0x5219; 0x8868; 0x8fbe; 0x5f0f; 0x65e0;
   0x6548; 0x3a; 0x20]%N.

Definition msg_no_pattern : str :=
  [0x65e0; 0x6cd5; 0x81ea; 0x52a8; 0x68c0; 0x6d4b; 0x7ae0; 0x8282; 0x683c;
   0x5f0f; 0xff0c; 0x8bf7; 0x4f7f; 0x7528; 0x81ea; 0x5b9a; 0x4e49; 0x7ae0;
   0x8282; 0x6a21; 0x5f0f]%N.

Definition desc_custom : str := [0x81ea; 0x5b9a; 0x4e49; 0x3a; 0x20]%N.

Definition body_dir : str := [0x6b63; 0x6587]%N.

Definition encodings : list str :=
  [ py "utf-8"; py "utf-8-sig"; py "gbk"; py "gb2312"; py "gb18030";
    py "big5"; py "shift_jis" ].

(** The interpreter and the operating system around the script.  A path
    names a readable regular file or nothing; making directories and
    writing files succeed; an encoding given by the caller names a codec. *)
Section Script.
(** The bytes of the file at a path, if there is one. *)
Variable open_read : str -> option (list Byte.byte).
(** [open(p, 'r', encoding=e).read()] on these bytes: the text, or
    nothing when it raises UnicodeDecodeError. *)
Variable decode : str -> list Byte.byte -> option str.
(** The same with [errors='replace']. *)
Variable decode_replace : str -> list Byte.byte -> str.
(** [re.compile(p, re.MULTILINE)]: the pattern, or the text of
    [re.error]. *)
Variable re_compile : str -> Pattern + str.
Variable os_path_join : str -> str -> str.
Variable os_path_dirname : str -> str.

(** *** detect_encoding (lines 62-74) *)

(** The loop over the candidates.  A missing file makes [open] raise
    FileNotFoundError, which the [except] clause does not catch (the
    message of the interpreter is shortened to the path). *)

Fixpoint try_encodings (file_path : str) (candidates : list str)
    : outcome str :=
  match candidates with
  | [] => Ok (py "utf-8")
  | encoding0 :: rest =>
      match open_read file_path with
      | None => Raise (FileNotFoundError file_path)
      | Some data =>
          match decode encoding0 data with
          | Some _ => Ok encoding0
          | None => try_encodings file_path rest
          end
      end
  end.

Definition detect_encoding (file_path : str) : outcome str :=
  try_encodings file_path encodings.


(** *** split_chapters (lines 89-219) *)

(** Lines 132-141: the pattern of the run and its description. *)
Definition choose_pattern (custom_pattern : option str) (content : str)
    : outcome (Pattern * str) :=
  match custom_pattern with
  | Some ((_ :: _) as custom) =>
      match re_compile custom with
      | inl chapter_pattern => Ok (chapter_pattern, desc_custom ++ custom)
      | inr e => Raise (ValueError (msg_bad_pattern ++ e))
      end
  | _ =>
      match detect_chapter_pattern content with
      | (Some chapter_pattern, pattern_desc) =>
          Ok (chapter_pattern, pattern_desc)
      | (None, _) => Raise (ValueError msg_no_pattern)
      end
  end.

(** Lines 199-209: one file per chapter record. *)
Fixpoint write_chapters (content out_dir : str) (chapters : list Chapter)
    (created_files : list str) : io (list str) :=
  match chapters with
  | [] => io_ret created_files
  | chapter :: rest =>
      let chapter_content :=
        strip (slice content (start chapter) (end_ chapter)) in
      let final_content := chapter_content in
      let output_path := os_path_join out_dir (filename chapter) in
      _ <~ write_file output_path final_content ;;
      write_chapters content out_dir rest (created_files ++ [output_path])
  end.

(** The body of the function.  [base_name] (line 129) and the parameter
    [use_chapter_title] are never read. *)
Definition split_chapters (input_file0 : str) (output_dir0 : option str)
    (custom_pattern : option str) (encoding0 : option str)
    (use_chapter_title : bool) : io SplitResult :=
  match open_read input_file0 with
  | None => io_raise (FileNotFoundError (msg_not_found ++ input_file0))
  | Some data =>
      enc <~ match encoding0 with
             | None => io_lift (detect_encoding input_file0)
             | Some e => io_ret e
             end ;;
      let content := decode_replace enc data in
      let out_dir :=
        match output_dir0 with
        | None => os_path_dirname input_file0
        | Some d => d
        end in
      let out_dir := os_path_join out_dir body_dir in
      _ <~ makedirs out_dir ;;
      chosen <~ io_lift (choose_pattern custom_pattern content) ;;
      let chapter_matches := finditer (fst chosen) content in
      chapters <~ io_lift (segment content chapter_matches) ;;
      created_files <~ write_chapters content out_dir chapters [] ;;
      io_ret {| success := true;
                input_file := input_file0;
                output_dir := out_dir;
                pattern_used := snd chosen;
                encoding := enc;
                chapters_found := length chapters;
                files_created := created_files |}
  end.
End Script.

(** ** A small concrete world for examples *)

Module Demo.
Definition ascii_bytes (s : string) : list Byte.byte :=
  list_byte_of_string s.

Definition code (b : Byte.byte) : char := Byte.to_N b.

Definition is_ascii (b : Byte.byte) : bool := (code b <? 128)%N.

Definition bytes_eqb (x y : list Byte.byte) : bool :=
  if list_eq_dec Byte.byte_eq_dec x y then true else false.

Definition str_eqb (x y : str) : bool :=
  if list_eq_dec N.eq_dec x y then true else false.

(** Four bytes that only GB18030 accepts (they encode U+0080). *)
Definition legacy_bytes : list Byte.byte :=
  [Byte.x81; Byte.x30; Byte.x81; Byte.x30].

(** UTF-8 of a two-heading text: volume one, chapter one. *)
Definition volumes_bytes : list Byte.byte :=
  [ Byte.xe7; Byte.xac; Byte.xac; Byte.xe4; Byte.xb8; Byte.x80;
    Byte.xe5; Byte.x8d; Byte.xb7; Byte.x0a;
    Byte.xe7; Byte.xac; Byte.xac; Byte.xe4; Byte.xb8; Byte.x80;
    Byte.xe7; Byte.xab; Byte.xa0; Byte.x0a ].

Definition volumes_text : str :=
  [ Han.di; Han.yi1; Han.juan; nl; Han.di; Han.yi1; Han.zhang; nl ].

Definition titled_text : str :=
  py "Chapter 1 The Beginning" ++ [nl] ++ py "AAA".

Definition titled_bytes : list Byte.byte :=
  ascii_bytes "Chapter 1 The Beginning" ++ [Byte.x0a] ++ ascii_bytes "AAA".

Definition open_read (path : str) : option (list Byte.byte) :=
  if str_eqb path (py "plain.txt") then Some (ascii_bytes "hello")
  else if str_eqb path (py "b.txt") then Some (ascii_bytes "b")
  else if str_eqb path (py "titled.txt") then Some titled_bytes
  else if str_eqb path (py "volumes.txt") then Some volumes_bytes
  else if str_eqb path (py "legacy.txt") then Some legacy_bytes
  else None.

(** The candidate codecs on the bytes of these files: each of them
    reads ASCII as itself. *)
Definition decode (enc : str) (data : list Byte.byte) : option str :=
  if forallb is_ascii data then Some (map code data)
  else if bytes_eqb data volumes_bytes then
    if str_eqb enc (py "utf-8") || str_eqb enc (py "utf-8-sig")
    then Some volumes_text else None
  else if bytes_eqb data legacy_bytes then
    if str_eqb enc (py "gb18030") then Some [0x80%N] else None
  else None.

Definition decode_replace (enc : str) (data : list Byte.byte) : str :=
  match decode enc data with
  | Some text => text
  | None => map (fun _ => 0xfffd%N) data
  end.

(** Three custom patterns: an optional group before a letter, a
    pattern without group that matches every line start, and one that
    does not compile. *)
Definition optional_group : regex :=
  seq [ROpt (RGroup (lit 97%N)); lit 98%N].

Definition re_compile (pattern : str) : Pattern + str :=
  if str_eqb pattern (py "(a)?b")
  then inl (re_compile_regex optional_group true)
  else if str_eqb pattern (py "^")
  then inl (re_compile_regex RBol true)
  else inr (py "missing ), unterminated subpattern at position 0").

(** [posixpath.join] of two components and [posixpath.dirname]. *)
Definition os_path_join (a b : str) : str :=
  match b with
  | 47%N :: _ => b
  | _ =>
      match rev a with
      | [] => b
      | 47%N :: _ => a ++ b
      | _ => a ++ [47%N] ++ b
      end
  end.

Fixpoint rstrip_slash (rs : str) : str :=
  match rs with
  | 47%N :: rs' => rstrip_slash rs'
  | _ => rs
  end.

Definition os_path_dirname (p : str) : str :=
  let head := firstn (Z.to_nat (rfind p 47%N (length p) + 1)) p in
  if forallb (N.eqb 47%N) head then head
  else rev (rstrip_slash (rev head)).

Definition split_chapters :=
  split_chapters open_read decode decode_replace re_compile
                 os_path_join os_path_dirname.

Definition fresh : disk := {| made_dirs := []; written := [] |}.
End Demo.

(** ** The detector in the specification's words *)

(** The pattern matches the start of the line once the line is trimmed. *)
Definition line_hits (r : regex) (line : str) : bool := re_match r (strip line).

(** The first pattern, in priority order, that hits at least one of the
    lines. *)
Definition first_matching (lines : list str) : option (str * regex) :=
  find (fun p => existsb (line_hits (snd p)) lines) DEFAULT_PATTERNS.

(** The scanned prefix of a document: its first 100 lines. *)
Definition scanned_lines (content : str) : list str :=
  firstn 100 (split content nl).

(** The five legacy East-Asian candidates. *)
Definition legacy_encodings : list str :=
  [ py "gbk"; py "gb2312"; py "gb18030"; py "big5"; py "shift_jis" ].

(** ** The segmenter in closed form *)

(** The index token of match number [i] (from 0): group 1 when the
    pattern has a group ([None] if the group took no part in the match),
    else the running count. *)
Definition index_token (i : nat) (m : Match) : option str :=
  match m_groups m with
  | [] => Some (str_of_nat (i + 1))
  | g1 :: _ => g1
  end.

(** The end offset of segment [i]: the start of match [i+1], or the
    length of the document. *)
Definition next_start (content : str) (ms : list Match) (i : nat) : nat :=
  match nth_error ms (S i) with
  | Some nx => m_start nx
  | None => length content
  end.

(** Offset of the first character of the line holding offset [pos]. *)
Definition line_start_of (content : str) (pos : nat) : nat :=
  if contains (firstn pos content) nl
  then Z.to_nat (rfind content nl pos + 1)
  else 0.

(** The title lines 153-156 compute: the text between the start of the
    line and the start of the match, trimmed, or else the trimmed match. *)
Definition heading_title (content : str) (m : Match) : str :=
  let before :=
    strip (slice content (line_start_of content (m_start m)) (m_start m)) in
  match before with
  | [] => strip (group0 content m)
  | _ => before
  end.

Definition chapter_at (content : str) (ms : list Match) (i : nat)
    (m : Match) (token : str) : Chapter :=
  {| start := m_start m;
     end_ := next_start content ms i;
     title := heading_title content m;
     filename := chapter_filename token;
     chapter_num := token |}.

(** Every match yields an index token. *)
Definition tokens_bound (ms : list Match) : Prop :=
  forall i m, nth_error ms i = Some m -> index_token i m <> None.

(** The whole source line holding offset [pos], trimmed: the title the
    comment on line 152 announces. *)
Fixpoint take_line (s : str) : str :=
  match s with
  | [] => []
  | c :: s' => if N.eqb c nl then [] else c :: take_line s'
  end.

Definition source_line (content : str) (pos : nat) : str :=
  strip (take_line (skipn (line_start_of content pos) content)).

(** The spans of the matches of a pattern in MULTILINE mode. *)
Definition spans (r : regex) (content : str) : list (nat * nat) :=
  map (fun m => (m_start m, m_end m))
      (finditer (re_compile_regex r true) content).

(** ** Vocabulary for further properties of the parser *)

(** The character [c] is a key of the table with a value from 0 to 9. *)
Definition digit_char (c : char) (v : Z) : Prop :=
  dict_get chinese_to_arabic c = Some v /\ (0 <= v <= 9)%Z.

Definition is_separator (c : char) : bool :=
  N.eqb c Han.wan || N.eqb c Han.yi.

(** No group separator occurs in the text. *)
Definition separator_free (text : str) : Prop :=
  forallb (fun c => negb (is_separator c)) text = true.

(** The locals after the loop has run over [text] from [st]. *)
Definition run_loop (text : str) (st : locals) : locals :=
  fold_left loop_body text st.

Definition initial : locals := {| result := 0%Z; temp := 0%Z |}.

(** ** Vocabulary for further properties of the matcher and the segmenter *)

(** Every way through the pattern goes through its group. *)
Fixpoint always_groups (r : regex) : bool :=
  match r with
  | RGroup _ => true
  | RSeq a b => always_groups a || always_groups b
  | RPlus a => always_groups a
  | _ => false
  end.

(** The pattern begins with the line-start anchor. *)
Definition anchored (r : regex) : bool :=
  match r with
  | RSeq RBol _ => true
  | _ => false
  end.

(** [m] is what one match attempt of [r] on [s] yields. *)
Definition is_match (multiline : bool) (r : regex) (s : str) (m : Match)
    : Prop :=
  exists must_advance g,
    match_at multiline s r (m_start m) must_advance = Some (m_end m, g)
    /\ m = make_match r s (m_start m) (m_end m) g.

(** The matches lie between [pos] and [len], each one ending before the
    next one starts. *)
Fixpoint chained (pos len : nat) (ms : list Match) : Prop :=
  match ms with
  | [] => True
  | m :: rest =>
      pos <= m_start m /\ m_start m <= m_end m /\ m_end m <= len
      /\ chained (m_end m) len rest
  end.

(** Offsets that never decrease, from [pos] on, and stay within [len]. *)
Fixpoint ascending (pos len : nat) (starts : list nat) : Prop :=
  match starts with
  | [] => True
  | a :: rest => pos <= a /\ a <= len /\ ascending a len rest
  end.

(** The ranges lines 148-162 give to a list of match starts: each start
    up to the next one, the last one up to [len]. *)
Fixpoint bounds (starts : list nat) (len : nat) : list (nat * nat) :=
  match starts with
  | [] => []
  | a :: rest => (a, hd len rest) :: bounds rest len
  end.

Definition range (c : Chapter) : nat * nat := (start c, end_ c).

(** The offset [i] is the first of its line. *)
Definition starts_line (content : str) (i : nat) : Prop :=
  i = 0 \/ exists q, i = S q /\ nth_error content q = Some nl.

(** The text of a segment before it is trimmed. *)
Definition chapter_text (content : str) (c : Chapter) : str :=
  slice content (start c) (end_ c).

(** ** Vocabulary for further properties of a run *)

(** The encoding a run reads the file with: the caller's, else the one
    detected. *)
Definition run_encoding (open_read : str -> option (list Byte.byte))
    (decode : str -> list Byte.byte -> option str) (input : str)
    (enc : option str) : str :=
  match enc with
  | Some e => e
  | None =>
      match detect_encoding open_read decode input with
      | Ok e => e
      | Raise _ => py "utf-8"
      end
  end.

(** The directory a run writes into (lines 123-125). *)
Definition run_out_dir (os_path_join : str -> str -> str)
    (os_path_dirname : str -> str) (input : str) (output : option str)
    : str :=
  os_path_join
    match output with
    | None => os_path_dirname input
    | Some d => d
    end
    body_dir.

(** The file written for a chapter record: its path and its text. *)
Definition chapter_file (os_path_join : str -> str -> str)
    (content out : str) (c : Chapter) : str * str :=
  (os_path_join out (filename c), strip (chapter_text content c)).

(** A text without white space at either end. *)
Definition trimmed (t : str) : Prop :=
  match t with
  | [] => True
  | c :: _ => isspace c = false /\ isspace (last t c) = false
  end.

(** The literal character a pattern demands right after the line start. *)
Definition first_literal (r : regex) : option char :=
  match r with
  | RSeq RBol (RSeq (RChar (CLit c)) _) => Some c
  | RSeq RBol (RSeq (RSeq (RChar (CLit c)) _) _) => Some c
  | _ => None
  end.

(** Two spaces, the heading "chapter one" in numeral characters, a line
    break and some text. *)
Definition indented_text : str :=
  py "  " ++ [Han.di; Han.yi1; Han.zhang; nl] ++ py "abc".

(** * Properties *)

(** ** The matcher on the script's patterns *)

(** Two headings of the numeral kind, one per line. *)
Example finditer_numeral_headings :
  finditer (re_compile_regex (snd pat_chinese) true) Demo.volumes_text
  = [ {| m_start := 0; m_end := 3; m_groups := [Some [Han.yi1]] |};
      {| m_start := 4; m_end := 7; m_groups := [Some [Han.yi1]] |} ].
Proof. vm_compute. reflexivity. Qed.

(** The line start is found after every line break; white space before
    a number may span an empty line. *)
Example finditer_bare_numbers :
  spans (snd pat_bare)
        (py "1 a" ++ [nl; nl] ++ py " 2" ++ [nl] ++ py "3 b")
  = [(0, 2); (4, 8); (8, 10)].
Proof. vm_compute. reflexivity. Qed.

(** Empty matches are matches too: one wherever the pattern can consume
    nothing, also right after a non-empty match. *)
Example finditer_empty_matches :
  spans (RStar (lit 120%N)) (py "axb") = [(0, 0); (1, 2); (2, 2); (3, 3)]
  /\ spans (ROpt (lit 120%N)) (py "x") = [(0, 1); (1, 1)]
  /\ spans RBol Demo.titled_text = [(0, 0); (24, 24)].
Proof. repeat split; vm_compute; reflexivity. Qed.

(** [\d] accepts every decimal digit, the bracket [0-9] only ASCII. *)
Example full_width_digit :
  re_match (snd pat_arabic) [Han.di; 0xff11%N; Han.zhang] = true
  /\ re_match (snd pat_loose) [Han.di; 0xff11%N; Han.zhang] = false.
Proof. split; vm_compute; reflexivity. Qed.

(** ** The numeral parser *)

Local Ltac split_eqb ch :=
  repeat match goal with
         | |- context [N.eqb ch ?x] =>
             destruct (N.eqb ch x) eqn:?; simpl; try reflexivity
         end.

Lemma loop_body_rule_step (res acc : Z) (ch : char) :
  let st := loop_body {| result := res; temp := acc |} ch in
  (result st, temp st) = rule_step (res, acc) ch.
Proof.
  unfold loop_body, rule_step, classify, chinese_to_arabic, dict_get.
  simpl. split_eqb ch.
Qed.

Lemma fold_loop_body_rule (text : str) (res acc : Z) :
  let st := fold_left loop_body text {| result := res; temp := acc |} in
  (result st, temp st) = fold_left rule_step text (res, acc).
Proof.
  revert res acc. induction text as [|ch text IH]; intros res acc.
  - reflexivity.
  - cbn [fold_left].
    pose proof (loop_body_rule_step res acc ch) as Hstep. cbv zeta in Hstep.
    rewrite <- Hstep.
    destruct (loop_body {| result := res; temp := acc |} ch) as [r t].
    apply IH.
Qed.

Lemma try_block_rule_total (text : str) :
  try_block text = Ok (rule_total text).
Proof.
  unfold try_block, rule_total.
  pose proof (fold_loop_body_rule text 0 0) as H. cbv zeta in H.
  rewrite <- H. reflexivity.
Qed.

(** The value the function returns, whatever the text: the total when it
    is positive.  (On the empty text the total is 0.) *)
Lemma parse_chinese_number_total (text : str) :
  parse_chinese_number text =
  if (0 <? rule_total text)%Z then Some (rule_total text) else None.
Proof.
  destruct text as [|ch text]; [reflexivity|].
  unfold parse_chinese_number. rewrite try_block_rule_total. reflexivity.
Qed.

Lemma loop_body_unrecognized (st : locals) (ch : char) :
  recognized ch = false -> loop_body st ch = st.
Proof.
  unfold recognized, loop_body.
  destruct (dict_get chinese_to_arabic ch); [discriminate|].
  intros H. apply orb_false_elim in H as [-> ->]. reflexivity.
Qed.

Lemma fold_loop_body_filter (text : str) (st : locals) :
  fold_left loop_body (filter recognized text) st =
  fold_left loop_body text st.
Proof.
  revert st. induction text as [|ch text IH]; intros st; [reflexivity|].
  cbn [filter fold_left]. destruct (recognized ch) eqn:E.
  - cbn [fold_left]. apply IH.
  - rewrite (loop_body_unrecognized st ch E). apply IH.
Qed.

Lemma rule_total_filter (text : str) :
  rule_total (filter recognized text) = rule_total text.
Proof.
  pose proof (try_block_rule_total text) as H1.
  pose proof (try_block_rule_total (filter recognized text)) as H2.
  unfold try_block in H1, H2. rewrite fold_loop_body_filter in H2.
  congruence.
Qed.

(** C2: the loop of [parse_chinese_number] is the single-accumulator rule:
    a digit character adds its value, hundred and thousand multiply, ten
    gives [acc*10+10] (10 from zero), a group separator flushes into the
    result and resets, the accumulator is added after the scan; so "ten
    two" reads 12 and "one hundred two ten three" reads 1033, the value of
    the rule, not 123. *)
Theorem parse_chinese_number_follows_rule :
  (forall res acc ch,
      let st := loop_body {| result := res; temp := acc |} ch in
      (result st, temp st) = rule_step (res, acc) ch)
  /\ (forall text, try_block text = Ok (rule_total text))
  /\ (forall text,
         parse_chinese_number text =
         match text with
         | [] => None
         | _ => if (0 <? rule_total text)%Z then Some (rule_total text)
                else None
         end)
  /\ parse_chinese_number [Han.shi; Han.er] = Some 12%Z
  /\ rule_total [Han.yi1; Han.bai; Han.er; Han.shi; Han.san] = 1033%Z
  /\ parse_chinese_number [Han.yi1; Han.bai; Han.er; Han.shi; Han.san]
     = Some 1033%Z.
Proof.
  split; [exact loop_body_rule_step|].
  split; [exact try_block_rule_total|].
  split.
  - intros text. rewrite parse_chinese_number_total.
    destruct text; reflexivity.
  - repeat split; reflexivity.
Qed.

(** C9: [parse_chinese_number] is total and never raises: it returns a
    strictly positive integer or [None]; it returns [None] exactly when the
    text is empty, the [try] block raised, or the accumulated result is not
    positive; the empty text and the lone zero character give [None]. *)
Theorem parse_chinese_number_never_raises :
  (forall text,
      (exists n, parse_chinese_number text = Some n /\ (0 < n)%Z)
      \/ parse_chinese_number text = None)
  /\ (forall text,
         parse_chinese_number text = None <->
         (text = []
          \/ (exists e, try_block text = Raise e)
          \/ (exists r, try_block text = Ok r /\ (r <= 0)%Z)))
  /\ (forall text, exists r, try_block text = Ok r)
  /\ parse_chinese_number [] = None
  /\ parse_chinese_number [Han.ling] = None.
Proof.
  split; [|split; [|split; [|split; reflexivity]]].
  - intros text. rewrite parse_chinese_number_total.
    destruct (0 <? rule_total text)%Z eqn:E.
    + left. eexists. split; [reflexivity|]. now apply Z.ltb_lt.
    + now right.
  - intros text. split.
    + intros H. destruct text as [|ch text]; [now left|]. right. right.
      exists (rule_total (ch :: text)). split; [apply try_block_rule_total|].
      rewrite parse_chinese_number_total in H.
      destruct (0 <? rule_total (ch :: text))%Z eqn:E; [discriminate|].
      now apply Z.ltb_ge.
    + intros [-> | [[e He] | [r [Hr Hle]]]]; [reflexivity| |].
      * rewrite try_block_rule_total in He. discriminate.
      * rewrite parse_chinese_number_total.
        rewrite try_block_rule_total in Hr. injection Hr as ->.
        apply Z.ltb_ge in Hle. now rewrite Hle.
  - intros text. eexists. apply try_block_rule_total.
Qed.

(** C10: characters that are neither in the table nor a group separator
    are skipped, so the result is that of the text without them; a text of
    unrecognized characters only (such as the ASCII digits "12") gives
    [None], and so does a lone hundred or thousand, which multiplies the
    zero accumulator. *)
Theorem parse_chinese_number_skips_unrecognized :
  (forall st ch, recognized ch = false -> loop_body st ch = st)
  /\ (forall text,
         parse_chinese_number text =
         parse_chinese_number (filter recognized text))
  /\ (forall text,
         forallb (fun ch => negb (recognized ch)) text = true ->
         parse_chinese_number text = None)
  /\ parse_chinese_number (py "12") = None
  /\ parse_chinese_number [Han.bai] = None
  /\ parse_chinese_number [Han.qian] = None.
Proof.
  split; [exact loop_body_unrecognized|].
  split; [|split; [|repeat split; reflexivity]].
  - intros text. rewrite !parse_chinese_number_total.
    now rewrite rule_total_filter.
  - intros text H. rewrite parse_chinese_number_total.
    rewrite <- rule_total_filter.
    replace (filter recognized text) with (@nil char); [reflexivity|].
    induction text as [|ch text IH]; [reflexivity|].
    cbn [forallb] in H. apply andb_prop in H as [Hc Ht].
    cbn [filter]. destruct (recognized ch); [discriminate|]. now apply IH.
Qed.

(** ** The encoding detector *)

Section EncodingFacts.
Variable open_read : str -> option (list Byte.byte).
Variable decode : str -> list Byte.byte -> option str.

Lemma try_encodings_first (file_path : str) (data : list Byte.byte)
    (pre : list str) (e : str) (post : list str) :
  open_read file_path = Some data ->
  (forall e', In e' pre -> decode e' data = None) ->
  decode e data <> None ->
  try_encodings open_read decode file_path (pre ++ e :: post) = Ok e.
Proof.
  intros Hfile Hpre He. induction pre as [|c pre IH]; cbn.
  - rewrite Hfile. destruct (decode e data); [reflexivity|congruence].
  - rewrite Hfile, (Hpre c (or_introl eq_refl)).
    apply IH. intros e' Hin. apply Hpre. now right.
Qed.

Lemma try_encodings_none (file_path : str) (data : list Byte.byte)
    (candidates : list str) :
  open_read file_path = Some data ->
  (forall e, In e candidates -> decode e data = None) ->
  try_encodings open_read decode file_path candidates = Ok (py "utf-8").
Proof.
  intros Hfile Hall. induction candidates as [|c rest IH]; cbn.
  - reflexivity.
  - rewrite Hfile, (Hall c (or_introl eq_refl)).
    apply IH. intros e Hin. apply Hall. now right.
Qed.

Lemma try_encodings_only (file_path : str) (data : list Byte.byte)
    (candidates : list str) (e : str) :
  open_read file_path = Some data ->
  In e candidates ->
  decode e data <> None ->
  (forall e', In e' candidates -> e' <> e -> decode e' data = None) ->
  try_encodings open_read decode file_path candidates = Ok e.
Proof.
  intros Hfile Hin He Hothers.
  induction candidates as [|c rest IH]; [contradiction|].
  cbn. rewrite Hfile.
  destruct (list_eq_dec N.eq_dec c e) as [->|Hne].
  - destruct (decode e data); [reflexivity|congruence].
  - rewrite (Hothers c (or_introl eq_refl) Hne).
    destruct Hin as [Heq|Hin]; [congruence|].
    apply IH; [exact Hin|]. intros e' Hin'. apply Hothers. now right.
Qed.

Lemma try_encodings_same_bytes (p1 p2 : str) (data : list Byte.byte)
    (candidates : list str) :
  open_read p1 = Some data -> open_read p2 = Some data ->
  try_encodings open_read decode p1 candidates =
  try_encodings open_read decode p2 candidates.
Proof.
  intros H1 H2. induction candidates as [|c rest IH]; cbn; [reflexivity|].
  rewrite H1, H2. now destruct (decode c data).
Qed.

(** C6: on a file with bytes [data], [detect_encoding] tries utf-8,
    utf-8-sig, gbk, gb2312, gb18030, big5, shift_jis in this order and
    returns the first under which the bytes decode; when none does it
    returns utf-8; the answer depends on the bytes only; bytes that decode
    under exactly one candidate, a legacy one, give that candidate. *)
Theorem detect_encoding_first_decodable (file_path : str)
    (data : list Byte.byte) :
  open_read file_path = Some data ->
  encodings = [ py "utf-8"; py "utf-8-sig"; py "gbk"; py "gb2312";
                py "gb18030"; py "big5"; py "shift_jis" ]
  /\ (forall pre e post,
         encodings = pre ++ e :: post ->
         (forall e', In e' pre -> decode e' data = None) ->
         decode e data <> None ->
         detect_encoding open_read decode file_path = Ok e)
  /\ ((forall e, In e encodings -> decode e data = None) ->
      detect_encoding open_read decode file_path = Ok (py "utf-8"))
  /\ (forall file_path',
         open_read file_path' = Some data ->
         detect_encoding open_read decode file_path' =
         detect_encoding open_read decode file_path)
  /\ (forall e,
         In e legacy_encodings ->
         decode e data <> None ->
         (forall e', In e' encodings -> e' <> e -> decode e' data = None) ->
         detect_encoding open_read decode file_path = Ok e).
Proof.
  intros Hfile. unfold detect_encoding.
  split; [reflexivity|]. split; [|split; [|split]].
  - intros pre e post -> Hpre He. now apply try_encodings_first with data.
  - intros Hall. now apply try_encodings_none with data.
  - intros p' Hp'. now apply try_encodings_same_bytes with data.
  - intros e Hleg He Hothers.
    apply try_encodings_only with data; try assumption.
    unfold legacy_encodings in Hleg. unfold encodings.
    cbn [In] in *. tauto.
Qed.
End EncodingFacts.

(** The file [legacy.txt] of the example world: only gb18030 reads it. *)
Lemma detect_encoding_first_decodable_witness :
  detect_encoding Demo.open_read Demo.decode (py "legacy.txt")
  = Ok (py "gb18030").
Proof.
  refine (proj2 (proj2 (proj2 (proj2
    (detect_encoding_first_decodable Demo.open_read Demo.decode
       (py "legacy.txt") (data := Demo.legacy_bytes) eq_refl))))
    (py "gb18030") _ _ _).
  - cbn. tauto.
  - discriminate.
  - intros e' Hin Hne. unfold encodings in Hin. cbn [In] in Hin.
    repeat (destruct Hin as [<-|Hin]; [try reflexivity; now elim Hne|]).
    contradiction.
Defined.

(** ** The heading-pattern detector *)

Lemma scan_lines_existsb (r : regex) (lines : list str) :
  scan_lines r lines = existsb (line_hits r) lines.
Proof.
  induction lines as [|line rest IH]; [reflexivity|].
  cbn [scan_lines existsb]. unfold line_hits at 1.
  now destruct (re_match r (strip line)).
Qed.

Lemma scan_patterns_find (patterns : list (str * regex)) (lines : list str) :
  scan_patterns patterns lines =
  match find (fun p => existsb (line_hits (snd p)) lines) patterns with
  | Some (pattern, r) => (Some (re_compile_regex r true), pattern)
  | None => (None, [])
  end.
Proof.
  induction patterns as [|[pattern r] rest IH]; [reflexivity|].
  cbn [scan_patterns find snd]. rewrite scan_lines_existsb.
  now destruct (existsb (line_hits r) lines).
Qed.

Lemma detect_chapter_pattern_first_matching (content : str) :
  detect_chapter_pattern content =
  match first_matching (scanned_lines content) with
  | Some (pattern, r) => (Some (re_compile_regex r true), pattern)
  | None => (None, [])
  end.
Proof. apply scan_patterns_find. Qed.

Lemma Chapter_1_hits : line_hits (snd pat_Chapter) (py "Chapter 1") = true.
Proof. vm_compute. reflexivity. Qed.

Lemma first_matching_Chapter_1 (others : list str) :
  let lines := py "Chapter 1" :: others in
  first_matching lines =
  if existsb (line_hits (snd pat_chinese)) lines then Some pat_chinese
  else if existsb (line_hits (snd pat_arabic)) lines then Some pat_arabic
  else Some pat_Chapter.
Proof.
  intros lines. unfold first_matching, DEFAULT_PATTERNS.
  cbn [find].
  destruct (existsb (line_hits (snd pat_chinese)) lines); [reflexivity|].
  destruct (existsb (line_hits (snd pat_arabic)) lines); [reflexivity|].
  replace (existsb (line_hits (snd pat_Chapter)) lines) with true;
    [reflexivity|].
  unfold lines. cbn [existsb]. now rewrite Chapter_1_hits.
Qed.

Lemma find_first {A : Type} (f : A -> bool) (l : list A) (x : A) :
  find f l = Some x ->
  f x = true /\
  exists pre post,
    l = pre ++ x :: post /\ forall y, In y pre -> f y = false.
Proof.
  induction l as [|a l IH]; [discriminate|].
  cbn [find]. destruct (f a) eqn:Ha.
  - intros [= ->]. split; [exact Ha|]. exists [], l. split; [reflexivity|].
    intros y [].
  - intros H. destruct (IH H) as [Hx [pre [post [-> Hpre]]]].
    split; [exact Hx|]. exists (a :: pre), post. split; [reflexivity|].
    intros y [<-|Hin]; [exact Ha|now apply Hpre].
Qed.

Lemma find_all_false {A : Type} (f : A -> bool) (l : list A) :
  (forall y, In y l -> f y = false) -> find f l = None.
Proof.
  induction l as [|a l IH]; intros H; [reflexivity|].
  cbn [find]. rewrite (H a (or_introl eq_refl)).
  apply IH. intros y Hy. apply H. now right.
Qed.

(** The text "Chapter 1", a line break, then the heading "chapter one"
    in numeral characters. *)
Lemma detect_chapter_pattern_later_line_wins :
  let content := py "Chapter 1" ++ [nl; Han.di; Han.yi1; Han.zhang] in
  hd_error (split content nl) = Some (py "Chapter 1")
  /\ detect_chapter_pattern content
     = (Some (re_compile_regex (snd pat_chinese) true), fst pat_chinese)
  /\ fst pat_chinese <> fst pat_Chapter.
Proof.
  cbv zeta. split; [reflexivity|]. split; [|discriminate].
  rewrite detect_chapter_pattern_first_matching.
  replace (first_matching _) with (Some pat_chinese)
    by (vm_compute; reflexivity).
  reflexivity.
Qed.

(** C5 (amended): [detect_chapter_pattern] looks at the first 100 lines
    only and returns the first pattern of the fixed list, in priority
    order, that matches the start of at least one trimmed scanned line,
    and [(None, "")] when none does.  For a document whose first line is
    "Chapter 1" it returns the case-sensitive "Chapter N" pattern provided
    no scanned line matches one of the two patterns listed before it, and
    in any case one of the first three patterns, never the lowercase, the
    loose or the numbered ones. *)
Theorem detect_chapter_pattern_priority :
  (forall content,
      detect_chapter_pattern content =
      match first_matching (scanned_lines content) with
      | Some (pattern, r) => (Some (re_compile_regex r true), pattern)
      | None => (None, [])
      end)
  /\ (forall content content',
         firstn 100 (split content nl) = firstn 100 (split content' nl) ->
         detect_chapter_pattern content = detect_chapter_pattern content')
  /\ (forall content p,
         first_matching (scanned_lines content) = Some p ->
         existsb (line_hits (snd p)) (scanned_lines content) = true
         /\ exists pre post,
              DEFAULT_PATTERNS = pre ++ p :: post
              /\ forall q, In q pre ->
                   existsb (line_hits (snd q)) (scanned_lines content)
                   = false)
  /\ (forall content,
         (forall q, In q DEFAULT_PATTERNS ->
            existsb (line_hits (snd q)) (scanned_lines content) = false) ->
         detect_chapter_pattern content = (None, []))
  /\ (forall content others,
         split content nl = py "Chapter 1" :: others ->
         existsb (line_hits (snd pat_chinese)) (scanned_lines content)
         = false ->
         existsb (line_hits (snd pat_arabic)) (scanned_lines content)
         = false ->
         detect_chapter_pattern content
         = (Some (re_compile_regex (snd pat_Chapter) true), fst pat_Chapter))
  /\ (forall content others,
         split content nl = py "Chapter 1" :: others ->
         In (snd (detect_chapter_pattern content))
            [fst pat_chinese; fst pat_arabic; fst pat_Chapter])
  /\ detect_chapter_pattern (py "Chapter 1")
     = (Some (re_compile_regex (snd pat_Chapter) true), fst pat_Chapter).
Proof.
  split; [exact detect_chapter_pattern_first_matching|].
  split; [|split; [|split; [|split; [|split]]]].
  - intros content content' H. unfold detect_chapter_pattern. now rewrite H.
  - intros content p H. now apply find_first in H.
  - intros content H. rewrite detect_chapter_pattern_first_matching.
    unfold first_matching. now rewrite find_all_false.
  - intros content others Hsplit H1 H2.
    rewrite detect_chapter_pattern_first_matching.
    unfold scanned_lines in *. rewrite Hsplit in *.
    change (firstn 100 (py "Chapter 1" :: others))
      with (py "Chapter 1" :: firstn 99 others) in *.
    pose proof (first_matching_Chapter_1 (firstn 99 others)) as E.
    cbv zeta in E. rewrite E, H1, H2. reflexivity.
  - intros content others Hsplit.
    rewrite detect_chapter_pattern_first_matching.
    unfold scanned_lines. rewrite Hsplit.
    change (firstn 100 (py "Chapter 1" :: others))
      with (py "Chapter 1" :: firstn 99 others).
    pose proof (first_matching_Chapter_1 (firstn 99 others)) as E.
    cbv zeta in E. rewrite E.
    destruct (existsb (line_hits (snd pat_chinese)) _); [now left|].
    destruct (existsb (line_hits (snd pat_arabic)) _);
      [right; now left|right; right; now left].
  - rewrite detect_chapter_pattern_first_matching.
    replace (first_matching _) with (Some pat_Chapter)
      by (vm_compute; reflexivity).
    reflexivity.
Qed.

(** ** The segmenter *)

Lemma chapter_of_match_closed (content : str) (ms : list Match)
    (chapters : list Chapter) (i : nat) (m : Match) :
  length chapters = i ->
  chapter_of_match content ms chapters i m =
  match index_token i m with
  | Some token => Ok (chapter_at content ms i m token)
  | None => Raise AttributeError
  end.
Proof.
  intros Hlen. unfold chapter_of_match, index_token. cbv zeta.
  rewrite Hlen.
  assert (Hend : (if i + 1 <? length ms
                  then m_start (nth (i + 1) ms m)
                  else length content) = next_start content ms i).
  { unfold next_start. rewrite Nat.add_1_r.
    destruct (S i <? length ms) eqn:E.
    - apply Nat.ltb_lt in E.
      now rewrite (nth_error_nth' ms m E).
    - apply Nat.ltb_ge in E. apply nth_error_None in E. now rewrite E. }
  rewrite Hend.
  destruct (m_groups m) as [|[g1|] gs]; reflexivity.
Qed.

Section LoopFacts.
Variable content : str.
Variable ms : list Match.

Lemma chapters_loop_bound (todo : list Match) :
  forall i chapters,
    length chapters = i ->
    (forall k m, nth_error todo k = Some m -> index_token (i + k) m <> None) ->
    exists new,
      chapters_loop content ms todo i chapters = Ok (chapters ++ new)
      /\ length new = length todo
      /\ forall k m,
           nth_error todo k = Some m ->
           exists token,
             index_token (i + k) m = Some token
             /\ nth_error new k = Some (chapter_at content ms (i + k) m token).
Proof.
  induction todo as [|m0 todo IH]; intros i chapters Hlen Hbound.
  - exists []. rewrite app_nil_r. repeat split.
    intros k m H. destruct k; discriminate.
  - cbn [chapters_loop].
    rewrite (chapter_of_match_closed content ms chapters m0 Hlen).
    pose proof (Hbound 0 m0 eq_refl) as H0. rewrite Nat.add_0_r in H0.
    destruct (index_token i m0) as [token|] eqn:Etok; [|congruence].
    cbn [bind].
    destruct (IH (i + 1)
                 (chapters ++ [chapter_at content ms i m0 token]))
      as [new [Hrun [Hnew Hnth]]].
    + rewrite length_app. cbn. lia.
    + intros k m Hk. replace (i + 1 + k) with (i + S k) by lia.
      now apply Hbound.
    + exists (chapter_at content ms i m0 token :: new).
      rewrite Hrun, <- app_assoc. split; [reflexivity|].
      split; [cbn; now rewrite Hnew|].
      intros [|k] m Hk.
      * injection Hk as <-. exists token. rewrite Nat.add_0_r. now split.
      * destruct (Hnth k m Hk) as [tok [Ht Hn]]. exists tok.
        replace (i + S k) with (i + 1 + k) by lia. now split.
Qed.

Lemma chapters_loop_ok_bound (todo : list Match) :
  forall i chapters res,
    length chapters = i ->
    chapters_loop content ms todo i chapters = Ok res ->
    forall k m, nth_error todo k = Some m -> index_token (i + k) m <> None.
Proof.
  induction todo as [|m0 todo IH]; intros i chapters res Hlen Hrun k m Hk.
  - destruct k; discriminate.
  - cbn [chapters_loop] in Hrun.
    rewrite (chapter_of_match_closed content ms chapters m0 Hlen) in Hrun.
    destruct (index_token i m0) as [token|] eqn:Etok; [|discriminate].
    cbn [bind] in Hrun. destruct k as [|k].
    + injection Hk as <-. rewrite Nat.add_0_r. congruence.
    + replace (i + S k) with (i + 1 + k) by lia.
      refine (IH (i + 1) _ res _ Hrun k m Hk).
      rewrite length_app. cbn. lia.
Qed.
End LoopFacts.

Lemma add_epilogue_idle (content : str) (chapters : list Chapter) :
  add_epilogue content chapters = chapters.
Proof. unfold add_epilogue. now rewrite Nat.ltb_irrefl. Qed.

(** What [segment] returns when every match yields a token. *)
Lemma segment_bound (content : str) (ms : list Match) :
  tokens_bound ms ->
  exists chapters,
    segment content ms = Ok chapters
    /\ length chapters = length ms
    /\ forall i m,
         nth_error ms i = Some m ->
         exists token,
           index_token i m = Some token
           /\ nth_error chapters i = Some (chapter_at content ms i m token).
Proof.
  intros Hb.
  destruct (@chapters_loop_bound content ms ms 0 [] eq_refl Hb)
    as [new [Hrun [Hlen Hnth]]].
  exists new. unfold segment. rewrite Hrun. cbn [bind app].
  rewrite add_epilogue_idle. repeat split; assumption.
Qed.

(** [segment] returns only when every match yields a token. *)
Lemma segment_ok_bound (content : str) (ms : list Match)
    (chapters : list Chapter) :
  segment content ms = Ok chapters -> tokens_bound ms.
Proof.
  unfold segment.
  destruct (chapters_loop content ms ms 0 []) as [res|e] eqn:Hrun;
    [|discriminate].
  intros _ i m Hi.
  exact (@chapters_loop_ok_bound content ms ms 0 [] res eq_refl Hrun i m Hi).
Qed.

(** The records of a returning run, by position. *)
Lemma segment_ok_nth (content : str) (ms : list Match)
    (chapters : list Chapter) :
  segment content ms = Ok chapters ->
  length chapters = length ms
  /\ forall i c,
       nth_error chapters i = Some c ->
       exists m token,
         nth_error ms i = Some m
         /\ index_token i m = Some token
         /\ c = chapter_at content ms i m token.
Proof.
  intros Hok.
  destruct (@segment_bound content ms (@segment_ok_bound content ms chapters Hok))
    as [chapters' [Hok' [Hlen Hnth]]].
  assert (chapters' = chapters) as -> by congruence.
  split; [exact Hlen|]. intros i c Hc.
  assert (Hi : i < length ms).
  { rewrite <- Hlen. apply nth_error_Some. congruence. }
  destruct (nth_error ms i) as [m|] eqn:Em;
    [|apply nth_error_None in Em; lia].
  destruct (Hnth i m Em) as [token [Ht Hn]].
  exists m, token. repeat split; congruence.
Qed.

(** *** Zero-filled decimal tokens *)

Lemma digit_fold_uint (d : Decimal.uint) (acc : nat) :
  fold_left (fun a c => 10 * a + digit_value c) (uint_chars d) acc =
  Nat.of_uint_acc d acc.
Proof.
  revert acc. induction d; intros acc; cbn [uint_chars fold_left Nat.of_uint_acc];
    try reflexivity; rewrite IHd, Nat.tail_mul_spec; f_equal;
    unfold digit_value; cbn; lia.
Qed.

Lemma digits_value_str_of_nat (n : nat) : digits_value (str_of_nat n) = n.
Proof.
  unfold digits_value, str_of_nat. rewrite digit_fold_uint.
  apply DecimalNat.Unsigned.of_to.
Qed.

Lemma digit_fold_zeros (k : nat) (s : str) :
  fold_left (fun a c => 10 * a + digit_value c) (repeat 48%N k ++ s) 0 =
  fold_left (fun a c => 10 * a + digit_value c) s 0.
Proof. induction k as [|k IH]; [reflexivity|exact IH]. Qed.

Lemma zfill_unsigned (width : nat) (s : str) :
  match s with c :: _ => is_sign c = false | [] => True end ->
  zfill width s = repeat 48%N (width - length s) ++ s.
Proof.
  intros Hs. unfold zfill. destruct (width <=? length s) eqn:E.
  - apply Nat.leb_le in E. now replace (width - length s) with 0 by lia.
  - destruct s as [|c s]; [now rewrite app_nil_r|].
    now rewrite Hs.
Qed.

Lemma uint_chars_unsigned (d : Decimal.uint) :
  match uint_chars d with c :: _ => is_sign c = false | [] => True end.
Proof. destruct d; cbn; auto. Qed.

Lemma digits_value_zfill (width n : nat) :
  digits_value (zfill width (str_of_nat n)) = n.
Proof.
  rewrite zfill_unsigned by apply uint_chars_unsigned.
  unfold digits_value. rewrite digit_fold_zeros.
  apply digits_value_str_of_nat.
Qed.

Lemma chapter_filename_eq (t1 t2 : str) :
  chapter_filename t1 = chapter_filename t2 <-> zfill 4 t1 = zfill 4 t2.
Proof.
  unfold chapter_filename. split.
  - intros H. injection H as H. now apply app_inv_tail in H.
  - now intros ->.
Qed.

Lemma four_digits_below_10000 (n : nat) :
  n < 10000 -> length (zfill 4 (str_of_nat n)) = 4.
Proof.
  intros Hn.
  assert (Hall : forallb (fun k => length (zfill 4 (str_of_nat k)) =? 4)
                         (List.seq 0 10000) = true)
    by (vm_compute; reflexivity).
  rewrite forallb_forall in Hall.
  apply Nat.eqb_eq, Hall, in_seq. lia.
Qed.

(** A pattern without group: the tokens are the running count. *)
Lemma segment_no_group (content : str) (ms : list Match) :
  (forall m, In m ms -> m_groups m = []) ->
  exists chapters,
    segment content ms = Ok chapters
    /\ length chapters = length ms
    /\ forall i c,
         nth_error chapters i = Some c ->
         chapter_num c = str_of_nat (i + 1)
         /\ filename c = chapter_filename (str_of_nat (i + 1)).
Proof.
  intros Hng.
  assert (Htok : forall i m, nth_error ms i = Some m ->
                             index_token i m = Some (str_of_nat (i + 1))).
  { intros i m Hi. unfold index_token.
    now rewrite (Hng m (nth_error_In ms i Hi)). }
  assert (Hb : tokens_bound ms).
  { intros i m Hi. rewrite (Htok i m Hi). discriminate. }
  destruct (segment_bound content Hb) as [chapters [Hok [Hlen Hnth]]].
  exists chapters. split; [exact Hok|]. split; [exact Hlen|].
  intros i c Hc.
  destruct (proj2 (segment_ok_nth content ms Hok) i c Hc)
    as [m [token [Hm [Ht ->]]]].
  rewrite (Htok i m Hm) in Ht. injection Ht as <-. now split.
Qed.

(** Where every match yields a token, the segments are one per match and
    contiguous up to the end of the document. *)
Lemma segment_contiguous (content : str) (ms : list Match) :
  tokens_bound ms ->
  exists chapters,
    segment content ms = Ok chapters
    /\ length chapters = length ms
    /\ (forall i m c,
           nth_error ms i = Some m -> nth_error chapters i = Some c ->
           start c = m_start m /\ end_ c = next_start content ms i)
    /\ (forall i c c',
           nth_error chapters i = Some c ->
           nth_error chapters (S i) = Some c' ->
           end_ c = start c')
    /\ (forall c, nth_error chapters (length ms - 1) = Some c ->
                  end_ c = length content).
Proof.
  intros Hb.
  destruct (segment_bound content Hb) as [chapters [Hok [Hlen Hnth]]].
  exists chapters. split; [exact Hok|]. split; [exact Hlen|].
  pose proof (proj2 (segment_ok_nth content ms Hok)) as Hinv.
  split; [|split].
  - intros i m c Hm Hc.
    destruct (Hinv i c Hc) as [m' [token [Hm' [_ ->]]]].
    assert (m' = m) as -> by congruence. now split.
  - intros i c c' Hc Hc'.
    destruct (Hinv i c Hc) as [m [token [Hm [_ ->]]]].
    destruct (Hinv (S i) c' Hc') as [m' [token' [Hm' [_ ->]]]].
    cbn. unfold next_start. now rewrite Hm'.
  - intros c Hc.
    destruct (Hinv _ c Hc) as [m [token [Hm [_ ->]]]].
    cbn. unfold next_start.
    assert (Hlt : length ms - 1 < length ms).
    { apply nth_error_Some. congruence. }
    replace (S (length ms - 1)) with (length ms) by lia.
    now rewrite (proj2 (nth_error_None ms (length ms)) (Nat.le_refl _)).
Qed.

Lemma chapters_loop_raises_attribute (content : str) (ms todo : list Match) :
  forall i chapters e,
    chapters_loop content ms todo i chapters = Raise e -> e = AttributeError.
Proof.
  induction todo as [|m todo IH]; intros i chapters e H; [discriminate|].
  cbn [chapters_loop] in H.
  destruct (chapter_of_match content ms chapters i m) as [c|e'] eqn:Ec.
  - cbn [bind] in H. exact (IH _ _ _ H).
  - cbn [bind] in H. injection H as <-.
    unfold chapter_of_match in Ec. cbv zeta in Ec.
    destruct (match m_groups m with [] => _ | g1 :: _ => g1 end);
      [discriminate|congruence].
Qed.

Lemma segment_raises_attribute (content : str) (ms : list Match) (e : exn) :
  segment content ms = Raise e -> e = AttributeError.
Proof.
  unfold segment.
  destruct (chapters_loop content ms ms 0 []) as [res|e'] eqn:Hrun;
    [discriminate|].
  cbn [bind]. intros [= <-].
  exact (chapters_loop_raises_attribute content ms ms 0 [] Hrun).
Qed.

(** A match without token aborts the whole segmentation. *)
Lemma segment_unbound_raises (content : str) (ms : list Match) :
  (exists i m, nth_error ms i = Some m /\ index_token i m = None) ->
  segment content ms = Raise AttributeError.
Proof.
  intros [i [m [Hm Ht]]].
  destruct (segment content ms) as [chapters|e] eqn:Hs.
  - exfalso. exact (segment_ok_bound content ms Hs i Hm Ht).
  - f_equal. exact (segment_raises_attribute content ms Hs).
Qed.

(** C1: the pattern [(a)?b] on the document "b" has one match, whose
    group took no part; the loop then asks [None] for [zfill] and the run
    raises AttributeError instead of returning one segment for the match.
    (Where every match yields a token, [segment_contiguous] gives the
    one-segment-per-match, gap-free layout, and [add_epilogue_idle] shows
    that no trailing segment is appended.) *)
Theorem segment_optional_group_raises :
  let content := py "b" in
  let ms := finditer (re_compile_regex Demo.optional_group true) content in
  (forall doc matches,
      (exists i m, nth_error matches i = Some m /\ index_token i m = None) ->
      segment doc matches = Raise AttributeError)
  /\ ms = [ {| m_start := 0; m_end := 1; m_groups := [None] |} ]
  /\ segment content ms = Raise AttributeError
  /\ Demo.split_chapters (py "b.txt") None (Some (py "(a)?b")) None true
                         Demo.fresh
     = (Raise AttributeError,
        {| made_dirs := [body_dir]; written := [] |}).
Proof.
  cbv zeta. split; [exact segment_unbound_raises|].
  repeat split; vm_compute; reflexivity.
Qed.

(** The file name of token "1" ends in the chapter character and ".md":
    no prefix followed by the filled token and ".md" alone spells it.
    And a signed token is not filled on its left: the zeros follow the
    sign. *)
Lemma chapter_filename_has_chapter_suffix :
  chapter_filename (py "1")
  = [Han.di] ++ py "0001" ++ [Han.zhang] ++ py ".md"
  /\ zfill 4 (py "-5") = py "-005"
  /\ forall prefix,
       chapter_filename (py "1") <> prefix ++ zfill 4 (py "1") ++ py ".md".
Proof.
  split; [reflexivity|]. split; [reflexivity|]. intros prefix H.
  assert (Hlen : length prefix = 2).
  { apply (f_equal (@length char)) in H. rewrite length_app in H.
    cbn in H. lia. }
  destruct prefix as [|a [|b [|c prefix]]]; try discriminate Hlen.
  cbv in H. discriminate H.
Qed.

(** A pattern without group on a two-line text: the file names count. *)
Example running_count_filenames :
  exists c1 c2,
    segment Demo.titled_text
            (finditer (re_compile_regex RBol true) Demo.titled_text)
    = Ok [c1; c2]
    /\ filename c1 = [Han.di] ++ py "0001" ++ [Han.zhang] ++ py ".md"
    /\ filename c2 = [Han.di] ++ py "0002" ++ [Han.zhang] ++ py ".md".
Proof. do 2 eexists. repeat split; vm_compute; reflexivity. Qed.

(** C3 (amended): in every returning run each segment's file name is the
    ordinal character, the raw index token zero-filled to width 4 by
    [zfill] (zeros on the left; after a leading sign if there is one),
    the chapter character and ".md"; the token is group 1 as captured,
    never converted, and the title plays no part.  Without a capturing
    group the run always returns and the token of segment [i] (from 0) is
    the decimal of [i+1]: 0001, 0002, and so on. *)
Theorem filename_is_frame_around_raw_token :
  (forall content ms chapters,
      segment content ms = Ok chapters ->
      forall i c,
        nth_error chapters i = Some c ->
        exists m token,
          nth_error ms i = Some m
          /\ index_token i m = Some token
          /\ chapter_num c = token
          /\ filename c = [Han.di] ++ zfill 4 token ++ [Han.zhang] ++ py ".md")
  /\ (forall i m g1 gs,
         m_groups m = Some g1 :: gs -> index_token i m = Some g1)
  /\ (forall token,
         match token with c :: _ => is_sign c = false | [] => True end ->
         zfill 4 token = repeat 48%N (4 - length token) ++ token)
  /\ chapter_filename [Han.yi1]
     = [Han.di] ++ py "000" ++ [Han.yi1; Han.zhang] ++ py ".md"
  /\ (forall content ms,
         (forall m, In m ms -> m_groups m = []) ->
         exists chapters,
           segment content ms = Ok chapters
           /\ length chapters = length ms
           /\ forall i c,
                nth_error chapters i = Some c ->
                chapter_num c = str_of_nat (i + 1)
                /\ filename c
                   = [Han.di] ++ zfill 4 (str_of_nat (i + 1))
                       ++ [Han.zhang] ++ py ".md")
  /\ zfill 4 (str_of_nat 1) = py "0001"
  /\ zfill 4 (str_of_nat 2) = py "0002"
  /\ (forall n, digits_value (zfill 4 (str_of_nat n)) = n)
  /\ (forall n, n < 10000 -> length (zfill 4 (str_of_nat n)) = 4).
Proof.
  split; [|split; [|split; [|split; [|split; [|split; [|split; [|split]]]]]]].
  - intros content ms chapters Hok i c Hc.
    destruct (proj2 (segment_ok_nth content ms Hok) i c Hc)
      as [m [token [Hm [Ht ->]]]].
    exists m, token. repeat split; assumption.
  - intros i m g1 gs H. unfold index_token. now rewrite H.
  - intros token. apply zfill_unsigned.
  - reflexivity.
  - exact segment_no_group.
  - reflexivity.
  - reflexivity.
  - exact (digits_value_zfill 4).
  - exact four_digits_below_10000.
Qed.

Lemma firstn_snoc {A : Type} (l : list A) (p : nat) (x : A) :
  nth_error l p = Some x -> firstn (S p) l = firstn p l ++ [x].
Proof.
  revert p. induction l as [|a l IH]; intros [|p] H; try discriminate.
  - injection H as ->. reflexivity.
  - cbn [firstn app]. f_equal. now apply IH.
Qed.

Lemma rfind_from_snoc (c : char) (l : str) :
  forall i last, rfind_from c (l ++ [c]) i last = Z.of_nat (i + length l).
Proof.
  induction l as [|a l IH]; intros i last; cbn [app rfind_from length].
  - rewrite N.eqb_refl. f_equal. lia.
  - rewrite IH. f_equal. lia.
Qed.

Lemma line_start_after_break (content : str) (p : nat) :
  nth_error content p = Some nl -> line_start_of content (S p) = S p.
Proof.
  intros H. unfold line_start_of, contains, rfind.
  rewrite (firstn_snoc content p H), existsb_app. cbn [existsb].
  rewrite N.eqb_refl, orb_true_r, rfind_from_snoc.
  assert (Hp : p < length content) by (apply nth_error_Some; congruence).
  rewrite length_firstn, Nat.min_l by lia. lia.
Qed.

(** A match that starts a line gets its own trimmed text as title. *)
Lemma heading_title_at_line_start (content : str) (m : Match) :
  m_start m = 0
  \/ (exists p, m_start m = S p /\ nth_error content p = Some nl) ->
  heading_title content m = strip (group0 content m).
Proof.
  intros H. unfold heading_title.
  assert (Hs : slice content (line_start_of content (m_start m)) (m_start m)
               = []).
  { unfold slice. destruct H as [->|[p [-> Hp]]].
    - reflexivity.
    - rewrite (line_start_after_break content p Hp), Nat.sub_diag.
      reflexivity. }
  rewrite Hs. reflexivity.
Qed.

(** C7: the title is not the whole source line.  The slice of line 154
    stops at the start of the match, so a match that starts its line gets
    its own trimmed text as title; in "Chapter 1 The Beginning / AAA" the
    detected pattern matches "Chapter 1" at offset 0 and the title stored
    is "Chapter 1", not the source line "Chapter 1 The Beginning". *)
Theorem title_stops_at_match_start :
  let content := Demo.titled_text in
  let ms := finditer (re_compile_regex (snd pat_Chapter) true) content in
  (forall doc m,
      m_start m = 0
      \/ (exists p, m_start m = S p /\ nth_error doc p = Some nl) ->
      heading_title doc m = strip (group0 doc m))
  /\ detect_chapter_pattern content
  = (Some (re_compile_regex (snd pat_Chapter) true), fst pat_Chapter)
  /\ ms = [ {| m_start := 0; m_end := 9; m_groups := [Some (py "1")] |} ]
  /\ (exists c,
         segment content ms = Ok [c]
         /\ title c = py "Chapter 1"
         /\ source_line content (start c) = py "Chapter 1 The Beginning")
  /\ py "Chapter 1" <> py "Chapter 1 The Beginning".
Proof.
  cbv zeta. split; [exact heading_title_at_line_start|].
  split; [|split; [|split]].
  - rewrite detect_chapter_pattern_first_matching.
    replace (first_matching _) with (Some pat_Chapter)
      by (vm_compute; reflexivity).
    reflexivity.
  - vm_compute. reflexivity.
  - eexists. split; [vm_compute; reflexivity|].
    split; vm_compute; reflexivity.
  - discriminate.
Qed.

(** Volume one and chapter one: two headings, one token, one file name;
    the second file replaces the first. *)
Lemma volume_and_chapter_share_a_filename :
  let content := Demo.volumes_text in
  let ms := finditer (re_compile_regex (snd pat_chinese) true) content in
  detect_chapter_pattern content
  = (Some (re_compile_regex (snd pat_chinese) true), fst pat_chinese)
  /\ (exists c1 c2,
         segment content ms = Ok [c1; c2]
         /\ start c1 <> start c2
         /\ filename c1 = filename c2)
  /\ (exists path text1 text2,
         written (snd (Demo.split_chapters (py "volumes.txt") None None None
                                           true Demo.fresh))
         = [(path, text1); (path, text2)]).
Proof.
  cbv zeta. split; [|split].
  - rewrite detect_chapter_pattern_first_matching.
    replace (first_matching _) with (Some pat_chinese)
      by (vm_compute; reflexivity).
    reflexivity.
  - do 2 eexists. split; [vm_compute; reflexivity|].
    split; [cbn; discriminate|reflexivity].
  - do 3 eexists. vm_compute. reflexivity.
Qed.

(** C8 (amended): in a returning run two segments have the same file name
    exactly when their index tokens zero-fill to the same string; so the
    file names are pairwise distinct when the pattern has no capturing
    group (the tokens are then the running count), and with a capturing
    group whenever the filled tokens are. *)
Theorem filenames_distinct_when_tokens_are :
  (forall content ms chapters,
      segment content ms = Ok chapters ->
      forall i j ci cj,
        nth_error chapters i = Some ci ->
        nth_error chapters j = Some cj ->
        (filename ci = filename cj <->
         zfill 4 (chapter_num ci) = zfill 4 (chapter_num cj)))
  /\ (forall content ms,
         (forall m, In m ms -> m_groups m = []) ->
         exists chapters,
           segment content ms = Ok chapters
           /\ length chapters = length ms
           /\ NoDup (map filename chapters)).
Proof.
  split.
  - intros content ms chapters Hok i j ci cj Hi Hj.
    destruct (proj2 (segment_ok_nth content ms Hok) i ci Hi)
      as [mi [ti [_ [_ ->]]]].
    destruct (proj2 (segment_ok_nth content ms Hok) j cj Hj)
      as [mj [tj [_ [_ ->]]]].
    cbn. apply chapter_filename_eq.
  - intros content ms Hng.
    destruct (segment_no_group content ms Hng) as [chapters [Hok [Hlen Hnth]]].
    exists chapters. split; [exact Hok|]. split; [exact Hlen|].
    apply NoDup_nth_error. intros i j Hi Heq.
    rewrite length_map in Hi. rewrite !nth_error_map in Heq.
    destruct (nth_error chapters i) as [ci|] eqn:Ei;
      [|apply nth_error_None in Ei; lia].
    destruct (nth_error chapters j) as [cj|] eqn:Ej; [|discriminate].
    cbn in Heq. injection Heq as Heq.
    destruct (Hnth i ci Ei) as [_ Hfi]. destruct (Hnth j cj Ej) as [_ Hfj].
    rewrite Hfi, Hfj in Heq. apply chapter_filename_eq in Heq.
    apply (f_equal digits_value) in Heq.
    rewrite !digits_value_zfill in Heq. lia.
Qed.

(** ** The errors of a run *)


Section RunFacts.
Variable open_read : str -> option (list Byte.byte).
Variable decode : str -> list Byte.byte -> option str.
Variable decode_replace : str -> list Byte.byte -> str.
Variable re_compile : str -> Pattern + str.
Variable os_path_join : str -> str -> str.
Variable os_path_dirname : str -> str.

Lemma try_encodings_total (file_path : str) (data : list Byte.byte)
    (candidates : list str) :
  open_read file_path = Some data ->
  exists e, try_encodings open_read decode file_path candidates = Ok e.
Proof.
  intros Hfile. induction candidates as [|c rest IH]; cbn.
  - now eexists.
  - rewrite Hfile. destruct (decode c data); [now eexists|exact IH].
Qed.









End RunFacts.


(** * Further properties *)

(** ** The numeral parser: sign, shapes, neutral characters, groups *)

Lemma loop_body_nonneg (st : locals) (ch : char) :
  (0 <= result st)%Z -> (0 <= temp st)%Z ->
  (0 <= result (loop_body st ch))%Z /\ (0 <= temp (loop_body st ch))%Z.
Proof.
  intros Hr Ht. unfold loop_body, chinese_to_arabic, dict_get. simpl.
  repeat match goal with
         | |- context [N.eqb ch ?x] => destruct (N.eqb ch x); simpl
         end;
    try (split; lia).
  destruct (temp st =? 0)%Z; simpl; split; lia.
Qed.

Lemma run_loop_nonneg (text : str) :
  forall st,
    (0 <= result st)%Z -> (0 <= temp st)%Z ->
    (0 <= result (run_loop text st))%Z /\ (0 <= temp (run_loop text st))%Z.
Proof.
  unfold run_loop. induction text as [|ch text IH]; intros st Hr Ht.
  - now split.
  - cbn [fold_left].
    destruct (loop_body_nonneg st ch Hr Ht) as [Hr' Ht']. now apply IH.
Qed.

(** X1: neither local ever goes negative, so the value accumulated by the
    [try] block is never negative, and the function answers [None]
    exactly when that value is zero, and the value itself otherwise. *)
Theorem parse_chinese_number_none_iff_zero :
  (forall text st,
      (0 <= result st)%Z -> (0 <= temp st)%Z ->
      (0 <= result (run_loop text st))%Z /\ (0 <= temp (run_loop text st))%Z)
  /\ (forall text,
         exists r,
           try_block text = Ok r
           /\ (0 <= r)%Z
           /\ (parse_chinese_number text = None <-> r = 0%Z)
           /\ (r <> 0%Z -> parse_chinese_number text = Some r)).
Proof.
  split; [exact run_loop_nonneg|].
  intros text. exists (rule_total text).
  split; [apply try_block_rule_total|].
  assert (Hnn : (0 <= rule_total text)%Z).
  { pose proof (try_block_rule_total text) as H. unfold try_block in H.
    injection H as H. rewrite <- H.
    destruct (run_loop_nonneg text initial) as [Hr Ht];
      [cbn; lia|cbn; lia|].
    unfold run_loop, initial in Hr, Ht. lia. }
  split; [exact Hnn|]. rewrite parse_chinese_number_total.
  destruct (0 <? rule_total text)%Z eqn:E.
  - apply Z.ltb_lt in E. split; [|reflexivity]. split; [discriminate|lia].
  - apply Z.ltb_ge in E. split; [|lia]. split; [lia|reflexivity].
Qed.

Lemma loop_body_digit (st : locals) (c : char) (v : Z) :
  digit_char c v ->
  loop_body st c = {| result := result st; temp := (temp st + v)%Z |}.
Proof.
  intros [Hget Hv]. unfold loop_body. rewrite Hget.
  replace (100 <=? v)%Z with false by (symmetry; apply Z.leb_gt; lia).
  replace (10 <=? v)%Z with false by (symmetry; apply Z.leb_gt; lia).
  reflexivity.
Qed.

Lemma loop_body_ten (st : locals) :
  loop_body st Han.shi =
  {| result := result st;
     temp := if (temp st =? 0)%Z then 10%Z else (temp st * 10 + 10)%Z |}.
Proof. reflexivity. Qed.

Lemma loop_body_hundred (st : locals) :
  loop_body st Han.bai =
  {| result := result st; temp := (temp st * 100)%Z |}.
Proof. reflexivity. Qed.

Lemma loop_body_thousand (st : locals) :
  loop_body st Han.qian =
  {| result := result st; temp := (temp st * 1000)%Z |}.
Proof. reflexivity. Qed.

Local Ltac shape :=
  unfold parse_chinese_number, try_block; cbn [fold_left];
  repeat first
    [ rewrite loop_body_ten | rewrite loop_body_hundred
    | rewrite loop_body_thousand
    | erewrite loop_body_digit by eassumption ];
  cbn [result temp];
  repeat match goal with
         | |- context [(?a =? 0)%Z] =>
             let E := fresh in
             destruct (a =? 0)%Z eqn:E;
             [apply Z.eqb_eq in E|apply Z.eqb_neq in E]; try lia
         end;
  match goal with
  | |- (if (0 <? ?r)%Z then _ else _) = Some ?r' =>
      replace (0 <? r)%Z with true by (symmetry; apply Z.ltb_lt; lia);
      f_equal; lia
  end.

(** X2: what the common shapes of a numeral read as, for digit characters
    [x], [y], [z] of values [a], [b], [d] with [a] at least 1: ten-y is
    [10+b]; x-ten is [10a+10] (so "two ten" reads 30, not 20) and
    x-ten-y is [10a+10+b]; x-hundred is [100a], x-hundred-y is [100a+b],
    x-thousand is [1000a]; x-hundred-y-ten-z is [(100a+b)*10+10+d]. *)
Theorem parse_chinese_number_shapes (x y z : char) (a b d : Z) :
  digit_char x a -> (1 <= a)%Z -> digit_char y b -> digit_char z d ->
  parse_chinese_number [Han.shi; y] = Some (10 + b)%Z
  /\ parse_chinese_number [x; Han.shi] = Some (10 * a + 10)%Z
  /\ parse_chinese_number [x; Han.shi; y] = Some (10 * a + 10 + b)%Z
  /\ parse_chinese_number [x; Han.bai] = Some (100 * a)%Z
  /\ parse_chinese_number [x; Han.bai; y] = Some (100 * a + b)%Z
  /\ parse_chinese_number [x; Han.qian] = Some (1000 * a)%Z
  /\ parse_chinese_number [x; Han.bai; y; Han.shi; z]
     = Some ((100 * a + b) * 10 + 10 + d)%Z.
Proof.
  intros Hx Ha Hy Hz.
  pose proof (proj2 Hx) as Hxr. pose proof (proj2 Hy) as Hyr.
  pose proof (proj2 Hz) as Hzr.
  repeat split; shape.
Qed.

(** "Two ten three" with the digits two and three. *)
Lemma parse_chinese_number_shapes_witness :
  parse_chinese_number [Han.er; Han.shi] = Some 30%Z
  /\ parse_chinese_number [Han.er; Han.shi; Han.san] = Some 33%Z.
Proof.
  pose proof (@parse_chinese_number_shapes Han.er Han.san Han.san 2 3 3)
    as H.
  destruct H as [_ [H1 [H2 _]]].
  - split; [reflexivity|lia].
  - lia.
  - split; [reflexivity|lia].
  - split; [reflexivity|lia].
  - split; [exact H1|exact H2].
Defined.

Lemma run_loop_middle (a b : str) (c : char) (st : locals) :
  run_loop (a ++ c :: b) st = run_loop b (loop_body (run_loop a st) c).
Proof. unfold run_loop. now rewrite fold_left_app. Qed.

Lemma loop_body_zero (st : locals) : loop_body st Han.ling = st.
Proof.
  rewrite (@loop_body_digit st Han.ling 0) by (split; [reflexivity|lia]).
  destruct st as [r t]. cbn. f_equal. lia.
Qed.

Lemma try_block_value (text : str) :
  try_block text
  = Ok (result (run_loop text initial) + temp (run_loop text initial))%Z.
Proof. reflexivity. Qed.

Lemma parse_of_try_block (text text' : str) :
  try_block text = try_block text' ->
  parse_chinese_number text = parse_chinese_number text'.
Proof.
  intros H. rewrite !parse_chinese_number_total.
  rewrite !try_block_rule_total in H. injection H as ->. reflexivity.
Qed.

(** X3: the zero character changes nothing wherever it stands: a text
    and the same text without its zero characters give the same answer
    (so "one hundred zero five" reads as "one hundred five", and a zero
    never shifts a digit). *)
Theorem parse_chinese_number_ignores_zero :
  (forall st, loop_body st Han.ling = st)
  /\ (forall text,
         parse_chinese_number text
         = parse_chinese_number
             (filter (fun c => negb (N.eqb c Han.ling)) text))
  /\ (forall before after,
         parse_chinese_number (before ++ Han.ling :: after)
         = parse_chinese_number (before ++ after)).
Proof.
  split; [exact loop_body_zero|].
  assert (Hf : forall text st,
             run_loop (filter (fun c => negb (N.eqb c Han.ling)) text) st
             = run_loop text st).
  { unfold run_loop. induction text as [|c text IH]; intros st;
      [reflexivity|].
    cbn [filter fold_left]. destruct (N.eqb c Han.ling) eqn:E; cbn [negb].
    - apply N.eqb_eq in E. subst c. rewrite loop_body_zero. apply IH.
    - cbn [fold_left]. apply IH. }
  split.
  - intros text. apply parse_of_try_block.
    rewrite !try_block_value. now rewrite Hf.
  - intros before after. apply parse_of_try_block.
    rewrite !try_block_value, run_loop_middle, loop_body_zero.
    unfold run_loop. now rewrite fold_left_app.
Qed.

Lemma loop_body_temp_only (st st' : locals) (c : char) :
  temp st = temp st' -> temp (loop_body st c) = temp (loop_body st' c).
Proof.
  intros H. unfold loop_body.
  destruct (dict_get chinese_to_arabic c) as [v|].
  - destruct (100 <=? v)%Z; [cbn; now rewrite H|].
    destruct (10 <=? v)%Z; cbn; now rewrite H.
  - destruct (N.eqb c Han.wan); [reflexivity|].
    destruct (N.eqb c Han.yi); [reflexivity|exact H].
Qed.

Lemma run_loop_temp_only (text : str) :
  forall st st',
    temp st = temp st' ->
    temp (run_loop text st) = temp (run_loop text st').
Proof.
  unfold run_loop. induction text as [|c text IH]; intros st st' H;
    [exact H|].
  cbn [fold_left]. apply IH. now apply loop_body_temp_only.
Qed.

Lemma loop_body_keeps_result (st : locals) (c : char) :
  is_separator c = false -> result (loop_body st c) = result st.
Proof.
  unfold is_separator, loop_body. intros H.
  apply orb_false_elim in H as [-> ->].
  destruct (dict_get chinese_to_arabic c) as [v|]; [|reflexivity].
  destruct (100 <=? v)%Z; [reflexivity|].
  destruct (10 <=? v)%Z; reflexivity.
Qed.

Lemma run_loop_keeps_result (text : str) :
  separator_free text ->
  forall st, result (run_loop text st) = result st.
Proof.
  unfold separator_free, run_loop.
  induction text as [|c text IH]; intros H st; [reflexivity|].
  cbn [forallb] in H. apply andb_prop in H as [Hc Ht].
  cbn [fold_left]. rewrite (IH Ht).
  apply loop_body_keeps_result. now apply negb_true_iff in Hc.
Qed.

Lemma try_block_group (a b : str) (sep : char) (g : Z) :
  separator_free a -> separator_free b ->
  (forall st, loop_body st sep
              = {| result := (result st + temp st * g)%Z; temp := 0%Z |}) ->
  exists ra rb,
    try_block a = Ok ra /\ try_block b = Ok rb
    /\ try_block (a ++ sep :: b) = Ok (ra * g + rb)%Z.
Proof.
  intros Ha Hb Hsep. do 2 eexists.
  split; [apply try_block_value|]. split; [apply try_block_value|].
  rewrite try_block_value. f_equal.
  rewrite run_loop_middle, Hsep.
  set (mid := {| result := (result (run_loop a initial)
                            + temp (run_loop a initial) * g)%Z;
                 temp := 0%Z |}).
  rewrite !(run_loop_keeps_result Hb), (run_loop_keeps_result Ha).
  rewrite (@run_loop_temp_only b mid initial) by reflexivity.
  unfold mid. cbn [result temp initial].
  rewrite (run_loop_keeps_result Ha). cbn [result initial]. lia.
Qed.

(** X4: a group separator splits the text into independent parts: for
    texts [a] and [b] without separator, with values [ra] and [rb],
    a-wan-b has the value [ra*10000 + rb] and a-yi-b the value
    [ra*100000000 + rb]. *)
Theorem try_block_group_separator (a b : str) :
  separator_free a -> separator_free b ->
  exists ra rb,
    try_block a = Ok ra /\ try_block b = Ok rb
    /\ try_block (a ++ Han.wan :: b) = Ok (ra * 10000 + rb)%Z
    /\ try_block (a ++ Han.yi :: b) = Ok (ra * 100000000 + rb)%Z.
Proof.
  intros Ha Hb.
  destruct (@try_block_group a b Han.wan 10000 Ha Hb) as [ra [rb [H1 [H2 H3]]]];
    [reflexivity|].
  destruct (@try_block_group a b Han.yi 100000000 Ha Hb)
    as [ra' [rb' [H1' [H2' H3']]]]; [reflexivity|].
  exists ra, rb. repeat split; try assumption.
  congruence.
Qed.

(** "Two wan three": twenty thousand and three. *)
Lemma try_block_group_separator_witness :
  exists ra rb,
    try_block [Han.er] = Ok ra /\ try_block [Han.san] = Ok rb
    /\ try_block ([Han.er] ++ Han.wan :: [Han.san]) = Ok (ra * 10000 + rb)%Z
    /\ try_block ([Han.er] ++ Han.yi :: [Han.san])
       = Ok (ra * 100000000 + rb)%Z.
Proof.
  apply (@try_block_group_separator [Han.er] [Han.san]); reflexivity.
Defined.

(** ** The encoding detector: what comes back *)

Lemma encodings_NoDup : NoDup encodings.
Proof.
  unfold encodings.
  repeat (constructor; [cbn; intuition discriminate|]). constructor.
Qed.

Section EncodingResult.
Variable open_read : str -> option (list Byte.byte).
Variable decode : str -> list Byte.byte -> option str.

Lemma try_encodings_missing (file_path : str) (c : str) (rest : list str) :
  open_read file_path = None ->
  try_encodings open_read decode file_path (c :: rest)
  = Raise (FileNotFoundError file_path).
Proof. intros H. cbn. now rewrite H. Qed.

Lemma try_encodings_sound (file_path : str) (data : list Byte.byte)
    (candidates : list str) (e : str) :
  open_read file_path = Some data ->
  try_encodings open_read decode file_path candidates = Ok e ->
  (In e candidates /\ decode e data <> None)
  \/ (e = py "utf-8" /\ forall e', In e' candidates -> decode e' data = None).
Proof.
  intros Hfile. induction candidates as [|c rest IH]; cbn.
  - intros [= <-]. right. split; [reflexivity|]. intros e' [].
  - rewrite Hfile. destruct (decode c data) as [text|] eqn:Ec.
    + intros [= <-]. left. split; [now left|congruence].
    + intros H. destruct (IH H) as [[Hin Hd]|[-> Hall]].
      * left. split; [now right|exact Hd].
      * right. split; [reflexivity|].
        intros e' [<-|Hin]; [exact Ec|now apply Hall].
Qed.

(** X5: [detect_encoding] raises FileNotFoundError when the file is
    missing and otherwise returns one of the seven candidates; the bytes
    of the file decode under the name returned, unless no candidate
    decodes them and the name is the utf-8 fallback. *)
Theorem detect_encoding_result (file_path : str) :
  (open_read file_path = None ->
   detect_encoding open_read decode file_path
   = Raise (FileNotFoundError file_path))
  /\ (forall data,
         open_read file_path = Some data ->
         exists e,
           detect_encoding open_read decode file_path = Ok e
           /\ In e encodings
           /\ (decode e data <> None
               \/ (e = py "utf-8"
                   /\ forall e', In e' encodings -> decode e' data = None))).
Proof.
  split.
  - intros H. now apply try_encodings_missing.
  - intros data Hfile. unfold detect_encoding.
    destruct (try_encodings open_read decode file_path encodings)
      as [e|x] eqn:Ht.
    + exists e. split; [reflexivity|].
      destruct (try_encodings_sound encodings Hfile Ht) as [[Hin Hd]|[-> Hall]].
      * split; [exact Hin|now left].
      * split; [now left|]. right. now split.
    + exfalso. clear -Hfile Ht. revert Ht.
      induction encodings as [|c rest IH]; cbn; [discriminate|].
      rewrite Hfile. destruct (decode c data); [discriminate|exact IH].
Qed.

Lemma try_encodings_shadowed (file_path : str) (data : list Byte.byte)
    (earlier later : str) :
  open_read file_path = Some data ->
  later <> py "utf-8" ->
  (decode later data <> None -> decode earlier data <> None) ->
  forall candidates,
    NoDup candidates ->
    (exists pre post, candidates = pre ++ earlier :: post /\ In later post) ->
    try_encodings open_read decode file_path candidates <> Ok later.
Proof.
  intros Hfile Hfb Hsh.
  induction candidates as [|c rest IH]; intros Hnd [pre [post [Heq Hin]]].
  - destruct pre; discriminate.
  - inversion Hnd as [|c' rest' Hc Hrest]; subst c' rest'.
    assert (Hlater : In later rest).
    { destruct pre as [|p pre]; injection Heq as -> ->; [exact Hin|].
      apply in_or_app. right. now right. }
    cbn. rewrite Hfile. destruct (decode c data) as [text|] eqn:Ec.
    + intros [= ->]. contradiction.
    + destruct pre as [|p pre]; injection Heq as -> ->.
      * intros H.
        destruct (try_encodings_sound post Hfile H) as [[_ Hd]|[H1 _]];
          [|contradiction].
        apply Hsh in Hd. congruence.
      * apply IH; [exact Hrest|]. now exists pre, post.
Qed.

(** X6: a candidate is never returned when an earlier candidate decodes
    everything it decodes.  With the real codecs this hides utf-8-sig
    behind utf-8 (a file with a byte-order mark is reported as utf-8). *)
Theorem detect_encoding_never_shadowed (file_path earlier later : str) :
  (exists pre post, encodings = pre ++ earlier :: post /\ In later post) ->
  (forall data, decode later data <> None -> decode earlier data <> None) ->
  detect_encoding open_read decode file_path <> Ok later.
Proof.
  intros Hord Hsh. unfold detect_encoding.
  destruct (open_read file_path) as [data|] eqn:Hfile.
  - apply try_encodings_shadowed with data earlier; try assumption.
    + destruct Hord as [pre [post [Heq Hin]]]. intros ->.
      pose proof encodings_NoDup as Hnd. rewrite Heq in Hnd.
      destruct pre as [|p pre].
      * injection Heq as <- <-. cbn in Hin. intuition discriminate.
      * injection Heq as <- Heq. rewrite <- app_comm_cons in Hnd.
        inversion Hnd as [|? ? Hnot _]. apply Hnot.
        apply in_or_app. right. now right.
    + apply Hsh.
    + exact encodings_NoDup.
  - unfold encodings. rewrite try_encodings_missing by assumption.
    discriminate.
Qed.
End EncodingResult.

(** In the example world utf-8 reads whatever utf-8-sig reads. *)
Lemma detect_encoding_never_shadowed_witness :
  detect_encoding Demo.open_read Demo.decode (py "volumes.txt")
  <> Ok (py "utf-8-sig")
  /\ detect_encoding Demo.open_read Demo.decode (py "volumes.txt")
     = Ok (py "utf-8").
Proof.
  split; [|reflexivity].
  apply (@detect_encoding_never_shadowed Demo.open_read Demo.decode
           (py "volumes.txt") (py "utf-8") (py "utf-8-sig")).
  - exists [], (tl encodings). split; [reflexivity|]. now left.
  - intros data. unfold Demo.decode.
    destruct (forallb Demo.is_ascii data); [discriminate|].
    destruct (Demo.bytes_eqb data Demo.volumes_bytes); [discriminate|].
    destruct (Demo.bytes_eqb data Demo.legacy_bytes); [|tauto].
    cbn. tauto.
Defined.

(** ** The matcher: where a match can lie *)

Section MatcherFacts.
Variable multiline : bool.
Variable s : str.

(** What a step of the matcher guarantees about the offset and the group
    it hands on. *)
Definition hands_on (i : nat) (g : option span) (k : cont)
    (res : nat * option span) (sets_group : bool) : Prop :=
  exists j g',
    i <= j
    /\ (i <= length s -> j <= length s)
    /\ (g <> None -> g' <> None)
    /\ (sets_group = true -> g' <> None)
    /\ k j g' = Some res.

Lemma greedy_hands_on (body : nat -> option span -> cont -> attempt) :
  (forall i g k res, body i g k = Some res -> hands_on i g k res false) ->
  forall fuel i g k res,
    greedy body fuel i g k = Some res -> hands_on i g k res false.
Proof.
  intros Hbody. induction fuel as [|fuel IH]; intros i g k res H.
  - cbn in H. exists i, g. repeat split; auto; try discriminate.
  - cbn [greedy] in H.
    destruct (body i g _) as [m|] eqn:Eb.
    + injection H as ->.
      destruct (Hbody _ _ _ _ Eb) as [j [g1 [Hij [Hlen [Hg [_ Hk]]]]]].
      destruct (i <? j) eqn:Elt; [|discriminate].
      destruct (IH _ _ _ _ Hk) as [j2 [g2 [Hj [Hlen2 [Hg2 [_ Hk2]]]]]].
      exists j2, g2. repeat split; auto; try lia; try discriminate.
    + exists i, g. repeat split; auto; try discriminate.
Qed.

Lemma run_hands_on (r : regex) :
  forall i g k res,
    run multiline s r i g k = Some res ->
    hands_on i g k res (always_groups r).
Proof.
  induction r as [|c| | |a IHa b IHb|a IHa|a IHa|a IHa|a IHa];
    intros i g k res H; cbn [run always_groups] in *.
  - exists i, g. repeat split; auto; try discriminate.
  - destruct (nth_error s i) as [ch|] eqn:En; [|discriminate].
    destruct (cclass_mem c ch); [|discriminate].
    assert (i < length s) by (apply nth_error_Some; congruence).
    exists (S i), g. repeat split; auto; try lia; try discriminate.
  - destruct (at_bol multiline s i); [|discriminate].
    exists i, g. repeat split; auto; try discriminate.
  - destruct (at_eol multiline s i); [|discriminate].
    exists i, g. repeat split; auto; try discriminate.
  - destruct (IHa _ _ _ _ H) as [j1 [g1 [H1 [L1 [G1 [A1 K1]]]]]].
    destruct (IHb _ _ _ _ K1) as [j2 [g2 [H2 [L2 [G2 [A2 K2]]]]]].
    exists j2, g2. repeat split; auto; try lia.
    intros Hs. apply orb_true_iff in Hs as [Hs|Hs]; auto.
  - destruct (IHa _ _ _ _ H) as [j1 [g1 [H1 [L1 [G1 [A1 K1]]]]]].
    assert (Hbody : forall i g k res,
               run multiline s a i g k = Some res -> hands_on i g k res false).
    { intros i0 g0 k0 res0 H0.
      destruct (IHa _ _ _ _ H0) as [j [g' [X1 [X2 [X3 [_ X5]]]]]].
      exists j, g'. repeat split; auto; try discriminate. }
    pose proof (@greedy_hands_on _ Hbody) as Hgreedy.
    destruct (Hgreedy _ _ _ _ _ K1) as [j2 [g2 [H2 [L2 [G2 [_ K2]]]]]].
    exists j2, g2. repeat split; auto; try lia.
  - assert (Hbody : forall i g k res,
               run multiline s a i g k = Some res -> hands_on i g k res false).
    { intros i0 g0 k0 res0 H0.
      destruct (IHa _ _ _ _ H0) as [j [g' [X1 [X2 [X3 [_ X5]]]]]].
      exists j, g'. repeat split; auto; try discriminate. }
    pose proof (@greedy_hands_on _ Hbody) as Hgreedy.
    exact (Hgreedy _ _ _ _ _ H).
  - destruct (run multiline s a i g k) as [m|] eqn:Ea.
    + injection H as ->.
      destruct (IHa _ _ _ _ Ea) as [j [g' [X1 [X2 [X3 [_ X5]]]]]].
      exists j, g'. repeat split; auto; try discriminate.
    + exists i, g. repeat split; auto; try discriminate.
  - destruct (IHa _ _ _ _ H) as [j [g' [X1 [X2 [_ [_ X5]]]]]].
    exists j, (Some (i, j)). repeat split; auto; try discriminate.
Qed.

Lemma match_at_span (r : regex) (i : nat) (must_advance : bool) (j : nat)
    (g : option span) :
  match_at multiline s r i must_advance = Some (j, g) ->
  i <= j
  /\ (i <= length s -> j <= length s)
  /\ (must_advance = true -> i < j)
  /\ (always_groups r = true -> g <> None).
Proof.
  unfold match_at. intros H.
  destruct (run_hands_on _ _ _ _ H) as [j' [g' [H1 [L1 [_ [A1 K1]]]]]].
  destruct (must_advance && (j' =? i)) eqn:E; [discriminate|].
  injection K1 as <- <-. repeat split; auto.
  intros ->. cbn in E. apply Nat.eqb_neq in E. lia.
Qed.

Lemma match_at_anchored (r : regex) (i : nat) (must_advance : bool)
    (res : nat * option span) :
  anchored r = true ->
  match_at multiline s r i must_advance = Some res ->
  at_bol multiline s i = true.
Proof.
  destruct r as [| | | |a b| | | |]; try discriminate.
  destruct a; try discriminate. intros _.
  unfold match_at. cbn [run].
  now destruct (at_bol multiline s i).
Qed.

Lemma search_finds (r : regex) (fuel : nat) :
  forall i must_advance a b g,
    search multiline s r fuel i must_advance = Some (a, b, g) ->
    i <= a /\ a <= i + fuel
    /\ exists ma, match_at multiline s r a ma = Some (b, g).
Proof.
  induction fuel as [|fuel IH]; intros i ma a b g H; cbn [search] in H.
  - destruct (match_at multiline s r i ma) as [[j g0]|] eqn:Em;
      [|discriminate].
    injection H as <- <- <-. repeat split; try lia. now exists ma.
  - destruct (match_at multiline s r i ma) as [[j g0]|] eqn:Em.
    + injection H as <- <- <-. repeat split; try lia. now exists ma.
    + destruct (IH _ _ _ _ _ H) as [H1 [H2 H3]]. repeat split; try lia.
      exact H3.
Qed.

Lemma finditer_from_chained (r : regex) (fuel : nat) :
  forall pos must_advance,
    pos <= length s ->
    let ms := finditer_from multiline r s fuel pos must_advance in
    chained pos (length s) ms /\ Forall (is_match multiline r s) ms.
Proof.
  induction fuel as [|fuel IH]; intros pos ma Hpos; cbn [finditer_from].
  - split; [exact I|constructor].
  - destruct (search multiline s r (length s - pos) pos ma)
      as [[[a b] g]|] eqn:Es; [|split; [exact I|constructor]].
    destruct (search_finds _ _ _ _ Es) as [H1 [H2 [ma' Hm]]].
    destruct (match_at_span _ _ _ Hm) as [Hab [Hlen _]].
    assert (Hb : b <= length s) by (apply Hlen; lia).
    destruct (IH b (b =? a) Hb) as [Hch Hall].
    split.
    + cbn [chained make_match m_start m_end]. repeat split; auto.
    + constructor; [|exact Hall].
      exists ma', g. cbn [make_match m_start m_end]. now split.
Qed.
End MatcherFacts.

(** ** Segments as ranges of the text *)

Lemma nth_error_bounds (len : nat) (starts : list nat) :
  forall i,
    nth_error (bounds starts len) i =
    match nth_error starts i with
    | Some a =>
        Some (a, match nth_error starts (S i) with
                 | Some b => b
                 | None => len
                 end)
    | None => None
    end.
Proof.
  induction starts as [|a rest IH]; intros [|i]; try reflexivity.
  - cbn. now destruct rest.
  - cbn [bounds nth_error]. rewrite IH. reflexivity.
Qed.

Lemma segment_ranges (content : str) (ms : list Match)
    (chapters : list Chapter) :
  segment content ms = Ok chapters ->
  map range chapters = bounds (map m_start ms) (length content).
Proof.
  intros Hok. destruct (segment_ok_nth content ms Hok) as [Hlen Hnth].
  apply nth_error_ext. intros n.
  rewrite nth_error_bounds, !nth_error_map.
  destruct (nth_error chapters n) as [c|] eqn:Ec.
  - destruct (Hnth n c Ec) as [m [token [Hm [_ ->]]]].
    rewrite Hm. unfold range, chapter_at, next_start.
    cbn [option_map start end_].
    now destruct (nth_error ms (S n)).
  - apply nth_error_None in Ec. rewrite Hlen in Ec.
    apply nth_error_None in Ec. now rewrite Ec.
Qed.

Lemma ascending_weaken (len : nat) (starts : list nat) (p p' : nat) :
  p' <= p -> ascending p len starts -> ascending p' len starts.
Proof.
  destruct starts as [|a rest]; [trivial|].
  cbn. intros Hp [H1 H2]. split; [lia|exact H2].
Qed.

Lemma chained_ascending (len : nat) (ms : list Match) :
  forall pos, chained pos len ms -> ascending pos len (map m_start ms).
Proof.
  induction ms as [|m rest IH]; intros pos; [trivial|].
  cbn. intros [H1 [H2 [H3 H4]]]. repeat split; try lia.
  apply ascending_weaken with (m_end m); [exact H2|]. now apply IH.
Qed.

Lemma bounds_in_order (len : nat) (starts : list nat) :
  forall pos,
    ascending pos len starts ->
    forall a b, In (a, b) (bounds starts len) -> a <= b /\ b <= len.
Proof.
  induction starts as [|x rest IH]; intros pos Hasc a b Hin; [contradiction|].
  cbn in Hasc. destruct Hasc as [H1 [H2 H3]].
  cbn [bounds In] in Hin. destruct Hin as [Heq|Hin].
  - injection Heq as <- <-. destruct rest as [|y rest]; cbn; [lia|].
    cbn in H3. lia.
  - exact (IH x H3 a b Hin).
Qed.

Lemma slice_to_end (content : str) (a : nat) :
  slice content a (length content) = skipn a content.
Proof.
  unfold slice. apply firstn_all2. rewrite length_skipn. lia.
Qed.

Lemma slice_then_rest (content : str) (a b : nat) :
  a <= b -> slice content a b ++ skipn b content = skipn a content.
Proof.
  intros Hab. unfold slice.
  replace (skipn b content) with (skipn (b - a) (skipn a content)).
  - apply firstn_skipn.
  - rewrite skipn_skipn. f_equal. lia.
Qed.

Lemma bounds_cover (content : str) (starts : list nat) :
  forall pos a rest,
    starts = a :: rest ->
    ascending pos (length content) starts ->
    concat (map (fun ab => slice content (fst ab) (snd ab))
                (bounds starts (length content)))
    = skipn a content.
Proof.
  induction starts as [|x xs IH]; intros pos a rest Heq Hasc; [discriminate|].
  injection Heq as -> ->. cbn in Hasc. destruct Hasc as [H1 [H2 H3]].
  cbn [bounds map concat fst snd]. destruct rest as [|y rest].
  - cbn. rewrite app_nil_r. apply slice_to_end.
  - rewrite (IH a y rest eq_refl H3). cbn [hd].
    apply slice_then_rest. cbn in H3. lia.
Qed.

Lemma chapter_texts_cover (content : str) (ms : list Match)
    (chapters : list Chapter) (m0 : Match) (rest : list Match) :
  ms = m0 :: rest ->
  ascending 0 (length content) (map m_start ms) ->
  map range chapters = bounds (map m_start ms) (length content) ->
  concat (map (chapter_text content) chapters) = skipn (m_start m0) content.
Proof.
  intros Hms Hasc Hr.
  replace (map (chapter_text content) chapters)
    with (map (fun ab => slice content (fst ab) (snd ab))
              (map range chapters))
    by (rewrite map_map; reflexivity).
  rewrite Hr. apply bounds_cover with 0 (map m_start rest);
    [now rewrite Hms|exact Hasc].
Qed.

(** X7: when the starts of the matches never decrease and lie within
    the document (as those of [finditer] do) and the run returns, the
    untrimmed texts of the segments, put end to end, are the document
    from the first match on: nothing after the first heading is lost or
    repeated; every segment range is in order and inside the document. *)
Theorem segments_cover_from_first_match (content : str) (ms : list Match)
    (chapters : list Chapter) (m0 : Match) (rest : list Match) :
  ms = m0 :: rest ->
  ascending 0 (length content) (map m_start ms) ->
  segment content ms = Ok chapters ->
  concat (map (chapter_text content) chapters) = skipn (m_start m0) content
  /\ forall c, In c chapters ->
       start c <= end_ c /\ end_ c <= length content.
Proof.
  intros Hms Hasc Hok. pose proof (segment_ranges content ms Hok) as Hr.
  split.
  - exact (@chapter_texts_cover content ms chapters m0 rest Hms Hasc Hr).
  - intros c Hc.
    apply (@bounds_in_order _ _ 0 Hasc (start c) (end_ c)).
    rewrite <- Hr. now apply (in_map range) in Hc.
Qed.

(** The two line starts of the example text. *)
Lemma segments_cover_from_first_match_witness :
  exists chapters,
    segment Demo.titled_text
            (finditer (re_compile_regex RBol true) Demo.titled_text)
    = Ok chapters
    /\ concat (map (chapter_text Demo.titled_text) chapters)
       = skipn 0 Demo.titled_text.
Proof.
  eexists. split; [vm_compute; reflexivity|].
  refine (proj1 (@segments_cover_from_first_match Demo.titled_text
                   (finditer (re_compile_regex RBol true) Demo.titled_text)
                   _ {| m_start := 0; m_end := 0; m_groups := [] |}
                   [ {| m_start := 24; m_end := 24; m_groups := [] |} ]
                   _ _ _)).
  - vm_compute. reflexivity.
  - vm_compute. repeat split; repeat constructor.
  - vm_compute. reflexivity.
Defined.

(** ** Headings found by the built-in patterns *)

Lemma builtin_shape (p : str * regex) :
  In p DEFAULT_PATTERNS ->
  anchored (snd p) = true
  /\ (has_group (snd p) = false \/ always_groups (snd p) = true).
Proof.
  unfold DEFAULT_PATTERNS. cbn [In].
  intros H.
  repeat (destruct H as [<-|H];
          [split; [reflexivity|first [now left|now right]]|]).
  contradiction.
Qed.

Lemma at_bol_starts_line (content : str) (i : nat) :
  at_bol true content i = true -> starts_line content i.
Proof.
  destruct i as [|q]; [now left|]. cbn.
  destruct (nth_error content q) as [c|] eqn:E; [|discriminate].
  intros H. apply N.eqb_eq in H. subst c. right. now exists q.
Qed.

Lemma finditer_anchored (r : regex) (content : str) :
  anchored r = true ->
  has_group r = false \/ always_groups r = true ->
  let ms := finditer (re_compile_regex r true) content in
  chained 0 (length content) ms
  /\ (forall m, In m ms -> starts_line content (m_start m))
  /\ (forall m, In m ms ->
        if has_group r then exists token, m_groups m = [Some token]
        else m_groups m = []).
Proof.
  intros Ha Hg ms.
  destruct (@finditer_from_chained true content r (2 * length content + 2)
              0 false (Nat.le_0_l _)) as [Hch Hall].
  fold ms in Hch, Hall. cbv zeta in Hch, Hall.
  change (finditer_from true r content (2 * length content + 2) 0 false)
    with ms in Hch, Hall.
  rewrite Forall_forall in Hall.
  split; [exact Hch|]. split.
  - intros m Hm. destruct (Hall m Hm) as [ma [g [Hat _]]].
    apply at_bol_starts_line.
    exact (@match_at_anchored true content r _ _ _ Ha Hat).
  - intros m Hm. destruct (Hall m Hm) as [ma [g [Hat Heq]]].
    rewrite Heq. cbn [make_match m_groups].
    destruct (has_group r) eqn:Eh; [|reflexivity].
    destruct Hg as [Hg|Hg]; [discriminate|].
    destruct (@match_at_span true content r _ _ _ _ Hat)
      as [_ [_ [_ Hset]]].
    destruct g as [[x y]|]; [now eexists|]. now elim (Hset Hg).
Qed.

Lemma tokens_bound_of_groups (ms : list Match) (grouped : bool) :
  (forall m, In m ms ->
     if grouped then exists token, m_groups m = [Some token]
     else m_groups m = []) ->
  tokens_bound ms.
Proof.
  intros H i m Hi. pose proof (H m (nth_error_In ms i Hi)) as Hm.
  unfold index_token. destruct grouped.
  - destruct Hm as [token ->]. discriminate.
  - rewrite Hm. discriminate.
Qed.

(** X8: for each of the seven built-in patterns and every document, the
    headings [finditer] yields lie inside the document, in order and
    without overlap; each starts at the beginning of a line; and each
    carries its captured number when the pattern has a group (no group
    is ever left out of a match). *)
Theorem builtin_headings_start_lines (content : str) :
  Forall
    (fun p =>
       let ms := finditer (re_compile_regex (snd p) true) content in
       chained 0 (length content) ms
       /\ (forall m, In m ms -> starts_line content (m_start m))
       /\ (forall m, In m ms ->
             if has_group (snd p) then exists token, m_groups m = [Some token]
             else m_groups m = []))
    DEFAULT_PATTERNS.
Proof.
  apply Forall_forall. intros p Hp.
  destruct (@builtin_shape p Hp) as [Ha Hg].
  exact (@finditer_anchored (snd p) content Ha Hg).
Qed.

(** X9: with a built-in pattern no heading lacks its index token, and
    whenever the segmentation of a document returns it has one segment per
    heading; each title is the trimmed text of the match itself (never what
    precedes it on the line); each range is in order and inside the
    document; and the untrimmed segment texts, put end to end, are the
    document from the first heading on. *)
Theorem builtin_segmentation (content : str) :
  Forall
    (fun p =>
       let ms := finditer (re_compile_regex (snd p) true) content in
       tokens_bound ms
       /\ forall chapters,
            segment content ms = Ok chapters ->
            length chapters = length ms
            /\ (forall i c,
                  nth_error chapters i = Some c ->
                  exists m,
                    nth_error ms i = Some m
                    /\ title c = strip (group0 content m)
                    /\ start c <= end_ c /\ end_ c <= length content)
            /\ (forall m0 rest,
                  ms = m0 :: rest ->
                  concat (map (chapter_text content) chapters)
                  = skipn (m_start m0) content))
    DEFAULT_PATTERNS.
Proof.
  apply Forall_forall. intros p Hp. cbv zeta.
  destruct (@builtin_shape p Hp) as [Ha Hg].
  destruct (@finditer_anchored (snd p) content Ha Hg) as [Hch [Hline Hgr]].
  set (ms := finditer (re_compile_regex (snd p) true) content) in *.
  split; [exact (@tokens_bound_of_groups ms _ Hgr)|].
  intros chapters Hok.
  pose proof (@chained_ascending _ ms 0 Hch) as Hasc.
  split; [exact (proj1 (segment_ok_nth content ms Hok))|]. split.
  - intros i c Hc.
    destruct (proj2 (segment_ok_nth content ms Hok) i c Hc)
      as [m [token [Hm [_ ->]]]].
    exists m. split; [exact Hm|]. split.
    + cbn [title chapter_at]. apply heading_title_at_line_start.
      exact (Hline m (nth_error_In ms i Hm)).
    + apply (@bounds_in_order _ _ 0 Hasc).
      rewrite <- (segment_ranges content ms Hok).
      exact (in_map range _ _ (nth_error_In chapters i Hc)).
  - intros m0 rest Hms.
    exact (@chapter_texts_cover content ms chapters m0 rest Hms Hasc
             (segment_ranges content ms Hok)).
Qed.

(** ** A run, step by step *)

Section RunSteps.
Variable open_read : str -> option (list Byte.byte).
Variable decode : str -> list Byte.byte -> option str.
Variable decode_replace : str -> list Byte.byte -> str.
Variable re_compile : str -> Pattern + str.
Variable os_path_join : str -> str -> str.
Variable os_path_dirname : str -> str.

Lemma write_chapters_appends (content out : str) (chapters : list Chapter) :
  forall created d,
    write_chapters os_path_join content out chapters created d
    = (Ok (created ++ map (fun c => os_path_join out (filename c)) chapters),
       {| made_dirs := made_dirs d;
          written := written d
                     ++ map (chapter_file os_path_join content out)
                            chapters |}).
Proof.
  induction chapters as [|c rest IH]; intros created d.
  - cbn. rewrite !app_nil_r. now destruct d.
  - cbn [write_chapters]. unfold io_bind, write_file. rewrite IH.
    cbn [made_dirs written map]. rewrite <- !app_assoc. reflexivity.
Qed.

(** The whole of a run on an existing file. *)
Lemma split_chapters_steps (input : str) (output custom enc : option str)
    (flag : bool) (d : disk) (data : list Byte.byte) :
  open_read input = Some data ->
  let content :=
    decode_replace (run_encoding open_read decode input enc) data in
  let out := run_out_dir os_path_join os_path_dirname input output in
  let d1 := {| made_dirs := made_dirs d ++ [out]; written := written d |} in
  split_chapters open_read decode decode_replace re_compile os_path_join
                 os_path_dirname input output custom enc flag d
  = match choose_pattern re_compile custom content with
    | Raise x => (Raise x, d1)
    | Ok chosen =>
        match segment content (finditer (fst chosen) content) with
        | Raise x => (Raise x, d1)
        | Ok chapters =>
            (Ok {| success := true;
                   input_file := input;
                   output_dir := out;
                   pattern_used := snd chosen;
                   encoding := run_encoding open_read decode input enc;
                   chapters_found := length chapters;
                   files_created :=
                     map (fun c => os_path_join out (filename c)) chapters |},
             {| made_dirs := made_dirs d ++ [out];
                written := written d
                           ++ map (chapter_file os_path_join content out)
                                  chapters |})
        end
    end.
Proof.
  intros Hfile content out d1. unfold split_chapters. rewrite Hfile.
  assert (Henc : match enc with
                 | Some e => io_ret e
                 | None => io_lift (detect_encoding open_read decode input)
                 end d
                 = (Ok (run_encoding open_read decode input enc), d)).
  { unfold run_encoding. destruct enc as [e|]; [reflexivity|].
    destruct (@try_encodings_total open_read decode input data encodings
                Hfile) as [e He].
    unfold io_lift, detect_encoding. now rewrite He. }
  unfold io_bind, io_lift, makedirs in *. rewrite Henc.
  cbv beta iota zeta. fold content. fold out.
  change (os_path_join
            match output with
            | Some d0 => d0
            | None => os_path_dirname input
            end body_dir) with out.
  destruct (choose_pattern re_compile custom content) as [chosen|x];
    [|reflexivity].
  cbv beta iota.
  destruct (segment content (finditer (fst chosen) content))
    as [chapters|x]; [|reflexivity].
  cbv beta iota. rewrite write_chapters_appends. reflexivity.
Qed.

Lemma lstrip_head (s : str) :
  match lstrip s with
  | [] => True
  | c :: _ => isspace c = false
  end.
Proof.
  induction s as [|c s IH]; [exact I|].
  cbn [lstrip]. destruct (isspace c) eqn:E; [exact IH|exact E].
Qed.

Lemma lstrip_skipn (s : str) : exists k, lstrip s = skipn k s.
Proof.
  induction s as [|c s [k IH]]; [now exists 0|].
  cbn [lstrip]. destruct (isspace c); [now exists (S k)|now exists 0].
Qed.

Lemma rstrip_firstn (t : str) : exists n, rstrip t = firstn n t.
Proof.
  unfold rstrip. destruct (lstrip_skipn (rev t)) as [k ->].
  rewrite skipn_rev, rev_involutive. now eexists.
Qed.

Lemma rstrip_last (t : str) :
  match rstrip t with
  | [] => True
  | c :: _ => isspace (last (rstrip t) c) = false
  end.
Proof.
  unfold rstrip. pose proof (lstrip_head (rev t)) as Hh.
  destruct (lstrip (rev t)) as [|h u]; [exact I|].
  cbn [rev]. destruct (rev u ++ [h]) as [|c r] eqn:E; [exact I|].
  rewrite <- E, last_last. exact Hh.
Qed.

Lemma strip_trimmed (s : str) : trimmed (strip s).
Proof.
  unfold trimmed, strip.
  pose proof (lstrip_head s) as Hh. pose proof (rstrip_last (lstrip s)) as Hl.
  destruct (rstrip_firstn (lstrip s)) as [n Hn].
  destruct (rstrip (lstrip s)) as [|c r] eqn:E; [exact I|].
  split; [|exact Hl].
  destruct (lstrip s) as [|c' t]; [now rewrite firstn_nil in Hn|].
  destruct n; [discriminate|]. cbn in Hn. now injection Hn as -> _.
Qed.

(** X10: whenever a run returns, the input file existed and the pattern
    step and the segmentation returned; the run made the output directory
    (the given one, else that of the input, joined with the fixed folder
    name) and then wrote one file per chapter record, in order, at the
    directory joined with the record's file name, holding the trimmed
    slice of the text; the result lists these paths, counts the records,
    and names the pattern description and the encoding used. *)
Theorem split_chapters_returns (input : str) (output custom enc : option str)
    (flag : bool) (d : disk) (res : SplitResult) (d2 : disk) :
  split_chapters open_read decode decode_replace re_compile os_path_join
                 os_path_dirname input output custom enc flag d
  = (Ok res, d2) ->
  exists data chosen chapters,
    let content :=
      decode_replace (run_encoding open_read decode input enc) data in
    let out := run_out_dir os_path_join os_path_dirname input output in
    open_read input = Some data
    /\ choose_pattern re_compile custom content = Ok chosen
    /\ segment content (finditer (fst chosen) content) = Ok chapters
    /\ res = {| success := true;
                input_file := input;
                output_dir := out;
                pattern_used := snd chosen;
                encoding := run_encoding open_read decode input enc;
                chapters_found := length chapters;
                files_created :=
                  map (fun c => os_path_join out (filename c)) chapters |}
    /\ d2 = {| made_dirs := made_dirs d ++ [out];
               written := written d
                          ++ map (chapter_file os_path_join content out)
                                 chapters |}.
Proof.
  intros Hrun. destruct (open_read input) as [data|] eqn:Hfile.
  - rewrite (split_chapters_steps output custom enc flag d Hfile) in Hrun.
    cbv zeta in Hrun.
    destruct (choose_pattern _ _ _) as [chosen|x] eqn:Hc; [|discriminate].
    destruct (segment _ _) as [chapters|x] eqn:Hs; [|discriminate].
    injection Hrun as <- <-.
    exists data, chosen, chapters. cbv zeta. repeat split; assumption.
  - unfold split_chapters in Hrun. rewrite Hfile in Hrun. discriminate.
Qed.

(** X11: a run that finds no file raises the not-found error and leaves
    the disk as it was; a run that raises the pattern-invalid error, the
    detection-failure error or the AttributeError of a token that is
    [None] has already made the output directory and has written
    nothing. *)
Theorem split_chapters_failure_leaves_directory (input : str)
    (output custom enc : option str) (flag : bool) (d : disk) :
  let run :=
    split_chapters open_read decode decode_replace re_compile os_path_join
                   os_path_dirname input output custom enc flag d in
  (open_read input = None ->
   run = (Raise (FileNotFoundError (msg_not_found ++ input)), d))
  /\ (forall x,
         fst run = Raise x ->
         (exists e, x = ValueError (msg_bad_pattern ++ e))
         \/ x = ValueError msg_no_pattern
         \/ x = AttributeError ->
         snd run
         = {| made_dirs :=
                made_dirs d
                ++ [run_out_dir os_path_join os_path_dirname input output];
              written := written d |}).
Proof.
  intros run. split.
  - intros H. unfold run, split_chapters. now rewrite H.
  - intros x Hx Hkind. destruct (open_read input) as [data|] eqn:Hfile.
    + revert Hx. unfold run.
      rewrite (split_chapters_steps output custom enc flag d Hfile).
      cbv zeta.
      destruct (choose_pattern _ _ _) as [chosen|e]; [|reflexivity].
      destruct (segment _ _) as [chapters|e]; [discriminate|reflexivity].
    + exfalso. revert Hx. unfold run, split_chapters. rewrite Hfile.
      cbn [fst io_raise]. intros [= <-].
      destruct Hkind as [[e He]|[He|He]]; discriminate.
Qed.


(** X13: whatever the inputs, a run only adds to the files written, and
    every text it writes is free of white space at both ends (a segment
    of white space only gives an empty file). *)
Theorem split_chapters_writes_trimmed (input : str)
    (output custom enc : option str) (flag : bool) (d : disk) :
  exists new,
    written (snd (split_chapters open_read decode decode_replace re_compile
                    os_path_join os_path_dirname input output custom enc
                    flag d))
    = written d ++ new
    /\ Forall (fun file => trimmed (snd file)) new.
Proof.
  destruct (open_read input) as [data|] eqn:Hfile.
  - rewrite (split_chapters_steps output custom enc flag d Hfile).
    cbv zeta.
    destruct (choose_pattern _ _ _) as [chosen|e];
      [|exists []; cbn; now rewrite app_nil_r].
    destruct (segment _ _) as [chapters|e];
      [|exists []; cbn; now rewrite app_nil_r].
    eexists. split; [reflexivity|].
    apply Forall_forall. intros file Hin.
    apply in_map_iff in Hin as [c [<- _]]. apply strip_trimmed.
  - unfold split_chapters. rewrite Hfile.
    exists []. cbn. now rewrite app_nil_r.
Qed.
End RunSteps.

(** A chapter heading at the start of a text, detected and split. *)
Lemma split_chapters_returns_witness :
  exists res d2,
    Demo.split_chapters (py "titled.txt") None None None true Demo.fresh
    = (Ok res, d2)
    /\ map fst (written d2) = files_created res.
Proof.
  assert (Hrun : exists res d2,
             Demo.split_chapters (py "titled.txt") None None None true
                                 Demo.fresh
             = (Ok res, d2))
    by (vm_compute; do 2 eexists; reflexivity).
  destruct Hrun as [res [d2 Hrun]]. exists res, d2.
  split; [exact Hrun|].
  destruct (@split_chapters_returns Demo.open_read Demo.decode
              Demo.decode_replace Demo.re_compile Demo.os_path_join
              Demo.os_path_dirname (py "titled.txt") None None None true
              Demo.fresh res d2 Hrun)
    as [data [chosen [chapters H]]].
  cbv zeta in H. destruct H as [_ [_ [_ [-> ->]]]].
  cbn [written files_created Demo.fresh app]. now rewrite map_map.
Defined.


(** ** Runs without a custom pattern *)



Section AutoRun.
Variable open_read : str -> option (list Byte.byte).
Variable decode : str -> list Byte.byte -> option str.
Variable decode_replace : str -> list Byte.byte -> str.
Variable re_compile : str -> Pattern + str.
Variable os_path_join : str -> str -> str.
Variable os_path_dirname : str -> str.

End AutoRun.


(** ** Detection trims lines, segmentation does not *)

Lemma match_at_first_literal (multiline : bool) (s : str) (r : regex)
    (c : char) (i : nat) (must_advance : bool) (res : nat * option span) :
  first_literal r = Some c ->
  match_at multiline s r i must_advance = Some res ->
  at_bol multiline s i = true /\ nth_error s i = Some c.
Proof.
  destruct r as [| | | |a b| | | |]; try discriminate.
  destruct a; try discriminate.
  destruct b as [| | | |b1 b2| | | |]; try discriminate.
  destruct b1 as [|cl| | |b3 b4| | | |]; try discriminate.
  - destruct cl as [c0| | | |]; try discriminate.
    intros [= ->]. unfold match_at. cbn [run cclass_mem].
    destruct (at_bol multiline s i); [|discriminate].
    destruct (nth_error s i) as [ch|]; [|discriminate].
    destruct (N.eqb ch c) eqn:E; [|discriminate].
    apply N.eqb_eq in E. subst ch. now split.
  - destruct b3 as [|cl| | | | | | |]; try discriminate.
    destruct cl as [c0| | | |]; try discriminate.
    intros [= ->]. unfold match_at. cbn [run cclass_mem].
    destruct (at_bol multiline s i); [|discriminate].
    destruct (nth_error s i) as [ch|]; [|discriminate].
    destruct (N.eqb ch c) eqn:E; [|discriminate].
    apply N.eqb_eq in E. subst ch. now split.
Qed.

(** The five built-in patterns that open with a literal, and the two
    that allow white space first. *)
Lemma first_literal_builtin :
  map (fun p => first_literal (snd p)) DEFAULT_PATTERNS
  = [ Some Han.di; Some Han.di; Some 67%N; Some 99%N; Some Han.di;
      None; None ].
Proof. reflexivity. Qed.

Lemma search_nothing (multiline : bool) (s : str) (r : regex) :
  (forall i must_advance, match_at multiline s r i must_advance = None) ->
  forall fuel i must_advance,
    search multiline s r fuel i must_advance = None.
Proof.
  intros Hnone. induction fuel as [|fuel IH]; intros i ma; cbn [search];
    rewrite Hnone; [reflexivity|apply IH].
Qed.

(** X15: a pattern that demands a literal character right after the
    line start finds nothing in a document none of whose lines begins
    with that character.  A heading indented by white space is therefore
    not found by the pattern that detection, which trims each line
    first, selected for it. *)
Theorem indented_headings_are_not_found (r : regex) (c : char)
    (content : str) :
  first_literal r = Some c ->
  (forall i, starts_line content i -> nth_error content i <> Some c) ->
  finditer (re_compile_regex r true) content = [].
Proof.
  intros Hr Hlines. cbn [finditer re_compile_regex].
  replace (2 * length content + 2) with (S (2 * length content + 1))
    by lia.
  cbn [finditer_from]. rewrite search_nothing; [reflexivity|].
  intros i ma.
  destruct (match_at true content r i ma) as [res|] eqn:Em; [|reflexivity].
  destruct (@match_at_first_literal true content r c i ma res Hr Em)
    as [Hbol Hc].
  now elim (Hlines i (at_bol_starts_line content i Hbol)).
Qed.

(** The indented heading: detected by the first pattern, found by none. *)
Lemma indented_headings_are_not_found_witness :
  detect_chapter_pattern indented_text
  = (Some (re_compile_regex (snd pat_chinese) true), fst pat_chinese)
  /\ finditer (re_compile_regex (snd pat_chinese) true) indented_text = [].
Proof.
  split.
  - rewrite detect_chapter_pattern_first_matching.
    replace (first_matching _) with (Some pat_chinese)
      by (vm_compute; reflexivity).
    reflexivity.
  - apply (@indented_headings_are_not_found (snd pat_chinese) Han.di
             indented_text); [reflexivity|].
    intros i [->|[q [-> Hq]]]; [discriminate|].
    do 6 (destruct q as [|q]; [discriminate|]).
    destruct q as [|q]; [discriminate|].
    do 3 (destruct q as [|q]; [discriminate|]). destruct q; discriminate.
Defined.

(** ** Blank documents *)

Lemma builtin_rejects_empty_line (p : str * regex) :
  In p DEFAULT_PATTERNS -> line_hits (snd p) [] = false.
Proof.
  unfold DEFAULT_PATTERNS. cbn [In]. intros H.
  repeat (destruct H as [<-|H]; [vm_compute; reflexivity|]).
  contradiction.
Qed.

Lemma line_hits_blank (r : regex) (line : str) :
  strip line = [] -> line_hits r line = line_hits r [].
Proof. unfold line_hits. now intros ->. Qed.

(** X16: a document whose scanned lines are all empty or white space
    only (the empty document among them) matches no built-in pattern:
    detection returns [(None, "")]. *)
Theorem detect_chapter_pattern_blank (content : str) :
  (forall line, In line (scanned_lines content) -> strip line = []) ->
  detect_chapter_pattern content = (None, []).
Proof.
  intros Hblank. rewrite detect_chapter_pattern_first_matching.
  unfold first_matching. rewrite find_all_false; [reflexivity|].
  intros q Hq.
  induction (scanned_lines content) as [|line rest IH]; [reflexivity|].
  cbn [existsb].
  rewrite (@line_hits_blank (snd q) line (Hblank line (or_introl eq_refl))).
  rewrite (@builtin_rejects_empty_line q Hq). cbn [orb].
  apply IH. intros l Hl. apply Hblank. now right.
Qed.

(** The empty document, and a line of blanks followed by a tab. *)
Lemma detect_chapter_pattern_blank_witness :
  detect_chapter_pattern [] = (None, [])
  /\ detect_chapter_pattern (py "   " ++ [nl; 9%N]) = (None, []).
Proof.
  split.
  - apply detect_chapter_pattern_blank.
    intros line [<-|[]]. reflexivity.
  - apply detect_chapter_pattern_blank.
    intros line [<-|[<-|[]]]; reflexivity.
Defined.
